(** * Strangers with Stories: the submission acceptance pipeline and the
      moderation workflow of [main.py], [models.py] and [database.py].

    The development has these layers:
    - [PyStr]: the Python [str] operations the pipeline calls
      ([len], [count], [strip], [split], [lower], [isalnum]);
    - [PyFloat]: the binary64 arithmetic behind [len(text) * 0.3];
    - [models], [database], [main]: the three source files, the handlers
      of [main] in a state and error monad over the table of stories;
    - [better_profanity]: the profanity filter the handler calls, which is
      a package and not part of the sources, as the specification has it;
    - the facts: the float thresholds against exact ratios, the order of
      the checks, and the moderation queue. *)

From Stdlib Require Import ZArith List Bool Lia String Ascii.
From Stdlib Require Import Floats.SpecFloat.
From Stdlib Require Import Sorting.Permutation Sorting.Sorted.
Import ListNotations.
Open Scope Z_scope.

(* ================================================================== *)
(** ** Python strings *)

Module PyStr.

(** A Python [str] is a sequence of Unicode code points. *)
Definition char := Z.
Definition str := list char.

(** An ASCII literal of the source, as a [str]. *)
Definition of_string (s : string) : str :=
  map (fun a => Z.of_N (N_of_ascii a)) (list_ascii_of_string s).

(** [len(s)] *)
Definition len {A : Type} (s : list A) : Z := Z.of_nat (List.length s).

(** [c in s] for a one-character [c]. *)
Definition mem (c : char) (s : str) : bool := existsb (Z.eqb c) s.

(** [s.count(c)] for a one-character [c]. *)
Fixpoint count (c : char) (s : str) : Z :=
  match s with
  | [] => 0
  | d :: s' => (if d =? c then 1 else 0) + count c s'
  end.

(** [sum(1 for c in s if p(c))] *)
Fixpoint count_if (p : char -> bool) (s : str) : Z :=
  match s with
  | [] => 0
  | d :: s' => (if p d then 1 else 0) + count_if p s'
  end.

(** The characters [str.strip()] and [str.split()] treat as white space
    ([Py_UNICODE_ISSPACE]): the ASCII controls 9-13 and 28-31, the space,
    and the Unicode separators. *)
Definition isspace (c : char) : bool :=
  ((9 <=? c) && (c <=? 13)) || ((28 <=? c) && (c <=? 32))
  || (c =? 133) || (c =? 160) || (c =? 5760)
  || ((8192 <=? c) && (c <=? 8202))
  || (c =? 8232) || (c =? 8233) || (c =? 8239) || (c =? 8287)
  || (c =? 12288).

Fixpoint dropwhile (p : char -> bool) (s : str) : str :=
  match s with
  | [] => []
  | c :: s' => if p c then dropwhile p s' else s
  end.

Definition lstrip (s : str) : str := dropwhile isspace s.
Definition rstrip (s : str) : str := rev (dropwhile isspace (rev s)).

(** [s.strip()] *)
Definition strip (s : str) : str := rstrip (lstrip s).

(** [s.split()]: the maximal runs of non-space characters, in order;
    [cur] is the run being read, last character first. *)
Definition flush (cur : str) (rest : list str) : list str :=
  match cur with
  | [] => rest
  | _ :: _ => rev cur :: rest
  end.

Fixpoint split_from (cur : str) (s : str) : list str :=
  match s with
  | [] => flush cur []
  | c :: s' =>
      if isspace c then flush cur (split_from [] s')
      else split_from (c :: cur) s'
  end.

Definition split (s : str) : list str := split_from [] s.

(** ASCII classes. *)
Definition is_ascii (c : char) : bool := (0 <=? c) && (c <? 128).
Definition ascii_isdigit (c : char) : bool := (48 <=? c) && (c <=? 57).
Definition ascii_isupper (c : char) : bool := (65 <=? c) && (c <=? 90).
Definition ascii_islower (c : char) : bool := (97 <=? c) && (c <=? 122).

(** Blocks of the Unicode database in which every code point is a letter
    or a digit, so that [str.isalnum] is [True] on it: the letters and
    numerals of Latin-1, Latin Extended-A and -B, the Greek, Cyrillic,
    Hebrew, Arabic and Devanagari letters, the Arabic-Indic and Devanagari
    digits, Hiragana, Katakana, the CJK unified ideographs and the Hangul
    syllables. *)
Definition ALNUM_BLOCKS : list (Z * Z) :=
  [(170, 170); (178, 179); (181, 181); (185, 186); (188, 190);
   (192, 214); (216, 246); (248, 591);
   (913, 929); (931, 937); (945, 969);
   (1024, 1153);
   (1488, 1514);
   (1569, 1594); (1601, 1610); (1632, 1641);
   (2308, 2361); (2406, 2415);
   (12353, 12438); (12449, 12538);
   (19968, 40869);
   (44032, 55203)].

Definition in_blocks (c : char) : bool :=
  existsb (fun block => (fst block <=? c) && (c <=? snd block)) ALNUM_BLOCKS.

Section Unicode.
(** The rest of the Unicode character database is a table of the
    interpreter: outside ASCII and the blocks above, [uni_isalnum c] is
    [c.isalnum()]; outside ASCII, [uni_lower c] is the full lower-case
    mapping of [c] (one to three code points). *)
Variable uni_isalnum : char -> bool.
Variable uni_lower : char -> str.

(** [c.isalnum()] *)
Definition isalnum (c : char) : bool :=
  if is_ascii c
  then ascii_isdigit c || ascii_isupper c || ascii_islower c
  else in_blocks c || uni_isalnum c.

Definition lower_char (c : char) : str :=
  if is_ascii c
  then (if ascii_isupper c then [c + 32] else [c])
  else uni_lower c.

(** [s.lower()], character by character.  (The one context-sensitive
    case of CPython, capital sigma, yields U+03C3 or U+03C2; the
    pipeline only looks for [aeiou] in the result.) *)
Definition lower (s : str) : str := flat_map lower_char s.
End Unicode.

End PyStr.

(* ================================================================== *)
(** ** Python floats *)

Module PyFloat.

(** A Python [float] is an IEEE 754 binary64. *)
Definition prec : Z := 53.
Definition emax : Z := 1024.

(** [float(n)] for an [int]: the nearest binary64, ties to even. *)
Definition of_int (n : Z) : spec_float := binary_normalize prec emax n 0 false.

(** The literals [0.3] and [0.2]: the binary64 nearest to 3/10 and 2/10. *)
Definition lit_0_3 : spec_float := S754_finite false 5404319552844595 (-54).
Definition lit_0_2 : spec_float := S754_finite false 7205759403792794 (-55).

(** [n * x] for an [int] [n] and a [float] [x]: [n] is converted, then
    the product is rounded to nearest, ties to even. *)
Definition int_mul (n : Z) (x : spec_float) : spec_float :=
  SFmul prec emax (of_int n) x.

(** [c > x] for an [int] [c] and a [float] [x]; Python compares the two
    exactly, without converting [c]. *)
Definition int_gt (c : Z) (x : spec_float) : bool :=
  match x with
  | S754_nan => false
  | S754_infinity s => s
  | S754_zero _ => 0 <? c
  | S754_finite s m e =>
      let v := if s then Zneg m else Zpos m in
      if 0 <=? e then v * 2 ^ e <? c else v <? c * 2 ^ (- e)
  end.

(** The integer part of a non-negative float. *)
Definition floor (x : spec_float) : option Z :=
  match x with
  | S754_zero _ => Some 0
  | S754_finite false m e =>
      Some (if 0 <=? e then Zpos m * 2 ^ e else Zpos m / 2 ^ (- e))
  | _ => None
  end.

(** A table check: [test n] for every [n] of [lo, lo + fuel). *)
Fixpoint check_from (test : Z -> bool) (fuel : nat) (lo : Z) : bool :=
  match fuel with
  | O => true
  | S fuel' => test lo && check_from test fuel' (lo + 1)
  end.

Definition floor_is (x : spec_float) (k : Z) : bool :=
  match floor x with
  | Some k' => k' =? k
  | None => false
  end.

(** The sign of a float. *)
Definition is_negative (x : spec_float) : bool :=
  match x with
  | S754_infinity s | S754_finite s _ _ => s
  | _ => false
  end.

End PyFloat.

Import PyStr PyFloat.

(* ================================================================== *)
(** ** models.py *)

Module models.

(** [StoryCreate]: the schema of a submission. *)
Record StoryCreate := {
  title : option str;
  author_name : option str;
  author_email : option str;
  story_text : str;
  category : str
}.

(** The length constraints of the [Field] declarations of [StoryCreate]; a
    request that violates them never reaches the handler.  (The [EmailStr]
    check of [author_email] is a second condition of the schema, not stated
    here.) *)
Definition MIN_LENGTH : Z := 10.
Definition MAX_LENGTH : Z := 10000.

Definition opt_len_le (o : option str) (n : Z) : bool :=
  match o with
  | None => true
  | Some s => len s <=? n
  end.

Definition lengths_valid (s : StoryCreate) : bool :=
  opt_len_le (title s) 255 && opt_len_le (author_name s) 255
  && (MIN_LENGTH <=? len (story_text s)) && (len (story_text s) <=? MAX_LENGTH).

(** [StoryResponse]: what the public endpoints serialise. *)
Record StoryResponse := {
  r_id : Z;
  r_title : option str;
  r_author_name : option str;
  r_story_text : str;
  r_category : str;
  r_created_at : Z;
  r_approved : bool
}.

End models.

(* ================================================================== *)
(** ** database.py *)

Module database.

(** A row of the [stories] table; times are readings of the UTC clock. *)
Record Story := {
  id : Z;
  title : option str;
  author_name : option str;
  author_email : option str;
  story_text : str;
  category : str;
  approved : bool;
  created_at : Z;
  updated_at : Z
}.

(** The table, in storage order. *)
Definition Db := list Story.

End database.

Import database.

(* ================================================================== *)
(** ** main.py *)

Module main.

(** [s1 == s2] on strings. *)
Fixpoint str_eqb (s1 s2 : str) : bool :=
  match s1, s2 with
  | [], [] => true
  | c1 :: t1, c2 :: t2 => (c1 =? c2) && str_eqb t1 t2
  | _, _ => false
  end.

(** [s in l] for a list of strings [l]. *)
Definition str_in (s : str) (l : list str) : bool := existsb (str_eqb s) l.

Definition ALLOWED_CATEGORIES : list str :=
  map of_string ["Love"; "Wisdom"; "Regret"; "Joy"; "Pain"; "Change"; "Other"]%string.

(** The literal of line 53: space, [. , ! ? ; :], apostrophe, double quote,
    em dash (U+2014), en dash (U+2013), hyphen. *)
Definition STANDARD_PUNCTUATION : str :=
  [32; 46; 44; 33; 63; 59; 58; 39; 34; 8212; 8211; 45].

Definition VOWELS : str := of_string "aeiou".

(** The [return] statement a call of [is_legitimate_story] leaves by, and
    the [raise] of [create_story] before it. *)
Inductive CheckId :=
  | CheckProfanity | CheckLength | CheckRepetition | CheckSymbols | CheckGibberish.

(** The verdicts of the pipeline and their reason codes. *)
Inductive Reason := Profanity | TooShort | Spammy.
Inductive AcceptanceVerdict := Accepted | Rejected (reason : Reason).

(** What a handler gives back: a body, or [raise HTTPException(...)]. *)
Inductive Result (A : Type) :=
  | Return (body : A)
  | HTTPException (status_code : Z) (detail : string).
Arguments Return {A} body.
Arguments HTTPException {A} status_code detail.

Definition INVALID_CATEGORY : string := "Invalid category".
Definition INAPPROPRIATE : string :=
  "Your story contains inappropriate language. Please revise and resubmit.".
Definition NOT_A_STORY : string :=
  "Your submission doesn't look like a real story. Please try again.".
Definition NOT_FOUND : string := "Story not found".
Definition NONE_APPROVED : string := "No approved stories yet".

(** Handlers run against the session: a state and error monad. *)
Definition Handler (A : Type) : Type := Db -> Result A * Db.

Definition ret {A} (a : A) : Handler A := fun db => (Return a, db).
Definition raise {A} (status_code : Z) (detail : string) : Handler A :=
  fun db => (HTTPException status_code detail, db).
Definition bind {A B} (m : Handler A) (k : A -> Handler B) : Handler B :=
  fun db =>
    match m db with
    | (Return a, db') => k a db'
    | (HTTPException c d, db') => (HTTPException c d, db')
    end.
Definition query : Handler Db := fun db => (Return db, db).
Definition commit (db' : Db) : Handler unit := fun _ => (Return tt, db').

Notation "x <- m ;; k" := (bind m (fun x => k))
  (at level 61, m at next level, right associativity).
Notation "m ;;; k" := (bind m (fun _ => k))
  (at level 61, right associativity).

(** [response_model=StoryResponse] with [from_attributes]. *)
Definition to_response (s : Story) : models.StoryResponse :=
  {| models.r_id := id s;
     models.r_title := title s;
     models.r_author_name := author_name s;
     models.r_story_text := story_text s;
     models.r_category := category s;
     models.r_created_at := created_at s;
     models.r_approved := approved s |}.

(** [.order_by(Story.created_at.desc())] *)
Fixpoint insert_desc (s : Story) (l : list Story) : list Story :=
  match l with
  | [] => [s]
  | x :: l' =>
      if created_at x <? created_at s then s :: l else x :: insert_desc s l'
  end.

Definition order_by_created_at_desc (l : list Story) : list Story :=
  fold_right insert_desc [] l.

Definition get_public_stories (category_arg : option str)
  : Handler (list models.StoryResponse) :=
  db <- query ;;
  let rows := order_by_created_at_desc (filter approved db) in
  match category_arg with
  | Some (c :: cs) =>
      if negb (str_in (c :: cs) ALLOWED_CATEGORIES)
      then raise 400 INVALID_CATEGORY
      else ret (map to_response
                  (filter (fun s => str_eqb (category s) (c :: cs)) rows))
  | _ => ret (map to_response rows)
  end.

(** [random.choice(stories)]: [rnd] is the draw of the generator. *)
Definition get_random_story (rnd : nat) : Handler models.StoryResponse :=
  db <- query ;;
  match filter approved db with
  | [] => raise 404 NONE_APPROVED
  | first :: rest =>
      let stories := first :: rest in
      ret (to_response (nth (rnd mod List.length stories) stories first))
  end.

(** The three handlers below look [story_id] up in the storage.  They
    stand for the code on the identifiers the storage can hold, the signed
    64-bit integers; beyond them the driver raises before any row is
    looked up, which is not modelled. *)
Definition get_story (story_id : Z) : Handler models.StoryResponse :=
  db <- query ;;
  match find (fun s => (id s =? story_id) && approved s) db with
  | None => raise 404 NOT_FOUND
  | Some story => ret (to_response story)
  end.

Definition get_pending_stories : Handler (list Story) :=
  db <- query ;;
  ret (order_by_created_at_desc db).

(** [story.approved = True; story.updated_at = datetime.utcnow()]: what
    the commit writes to the row of that primary key. *)
Definition approve_row (now : Z) (s : Story) : Story :=
  {| id := id s;
     title := title s;
     author_name := author_name s;
     author_email := author_email s;
     story_text := story_text s;
     category := category s;
     approved := true;
     created_at := created_at s;
     updated_at := now |}.

Definition APPROVED : string := "Story approved".
Definition DELETED : string := "Story deleted".

Definition approve_story (story_id now : Z) : Handler string :=
  db <- query ;;
  match find (fun s => id s =? story_id) db with
  | None => raise 404 NOT_FOUND
  | Some _ =>
      commit (map (fun s => if id s =? story_id then approve_row now s else s) db) ;;;
      ret APPROVED
  end.

Definition reject_story (story_id : Z) : Handler string :=
  db <- query ;;
  match find (fun s => id s =? story_id) db with
  | None => raise 404 NOT_FOUND
  | Some _ =>
      commit (filter (fun s => negb (id s =? story_id)) db) ;;;
      ret DELETED
  end.

Section Pipeline.

(** The Unicode tables of the interpreter (see [PyStr]). *)
Variable uni_isalnum : char -> bool.
Variable uni_lower : char -> str.

(** [profanity.contains_profanity] of the [better_profanity] package,
    with the word list loaded at start-up (line 19). *)
Variable contains_profanity : str -> bool.

(** Line 49, for one [char]: [text.count(char) > len(text) * 0.3]. *)
Definition repeated (text : str) (ch : char) : bool :=
  int_gt (count ch text) (int_mul (len text) lit_0_3).

(** Line 53. *)
Definition non_standard (c : char) : bool :=
  negb (isalnum uni_isalnum c) && negb (mem c STANDARD_PUNCTUATION).

Definition non_alpha (text : str) : Z := count_if non_standard text.

(** Line 62. *)
Definition vowels (word : str) : Z :=
  count_if (fun c => mem c VOWELS) (lower uni_lower word).

(** Lines 59-64. *)
Fixpoint gibberish_count (words : list str) : Z :=
  match words with
  | [] => 0
  | word :: rest =>
      (if (8 <? len word) && (vowels word =? 0) then 1 else 0)
      + gibberish_count rest
  end.

(** Line 66. *)
Definition mostly_gibberish (words : list str) : bool :=
  int_gt (gibberish_count words) (int_mul (len words) lit_0_3).

Definition is_legitimate_story (text : str) : bool :=
  if len (strip text) <? 10 then false
  else if existsb (repeated text) text then false
  else if int_gt (non_alpha text) (int_mul (len text) lit_0_2) then false
  else if mostly_gibberish (split text) then false
  else true.

(** [is_legitimate_story], recording the [return False] it leaves by. *)
Definition failed_check (text : str) : option CheckId :=
  if len (strip text) <? 10 then Some CheckLength
  else if existsb (repeated text) text then Some CheckRepetition
  else if int_gt (non_alpha text) (int_mul (len text) lit_0_2) then Some CheckSymbols
  else if mostly_gibberish (split text) then Some CheckGibberish
  else None.

(** Lines 139-151 of [create_story]: the pipeline.  The first [raise]
    carries the profanity message, the second the one message of every
    other rejection. *)
Definition evaluate (text : str) : AcceptanceVerdict :=
  if contains_profanity text then Rejected Profanity
  else if negb (is_legitimate_story text) then Rejected Spammy
  else Accepted.

(** [evaluate], recording the check that rejected. *)
Definition rejected_by (text : str) : option CheckId :=
  if contains_profanity text then Some CheckProfanity
  else failed_check text.

(** The pipeline as a step of a handler. *)
Definition moderate (text : str) : Handler unit :=
  if contains_profanity text then raise 400 INAPPROPRIATE
  else if negb (is_legitimate_story text) then raise 400 NOT_A_STORY
  else ret tt.

(** [Story(title=..., ..., approved=...)] of lines 153-160, once stored:
    the row has the identifier the storage assigns and the two clock
    readings of the column defaults. *)
Definition new_story (story : models.StoryCreate) (is_approved : bool)
    (new_id now_created now_updated : Z) : Story :=
  {| id := new_id;
     title := models.title story;
     author_name := models.author_name story;
     author_email := models.author_email story;
     story_text := models.story_text story;
     category := models.category story;
     approved := is_approved;
     created_at := now_created;
     updated_at := now_updated |}.

(** [db.add(db_story); db.commit(); db.refresh(db_story)] *)
Definition add (db_story : Story) : Handler Story :=
  db <- query ;;
  commit (db ++ [db_story]) ;;;
  ret db_story.

Definition SUBMITTED : string := "Story submitted for review".

Definition create_story (story : models.StoryCreate)
    (new_id now_created now_updated : Z) : Handler (Z * string) :=
  if negb (str_in (models.category story) ALLOWED_CATEGORIES)
  then raise 400 INVALID_CATEGORY
  else
    moderate (models.story_text story) ;;;
    db_story <- add (new_story story false new_id now_created now_updated) ;;
    ret (id db_story, SUBMITTED).

(** The requests that reach the storage, each with what the environment
    supplies to it (identifier, clock readings, random draw). *)
Inductive Request :=
  | PostStory (story : models.StoryCreate) (new_id now_created now_updated : Z)
  | PatchApprove (story_id now : Z)
  | DeleteStory (story_id : Z)
  | GetStories (category_arg : option str)
  | GetStory (story_id : Z)
  | GetRandom (rnd : nat)
  | GetPending.

(** The table after a request. *)
Definition serve (req : Request) (db : Db) : Db :=
  match req with
  | PostStory story new_id t1 t2 => snd (create_story story new_id t1 t2 db)
  | PatchApprove story_id now => snd (approve_story story_id now db)
  | DeleteStory story_id => snd (reject_story story_id db)
  | GetStories c => snd (get_public_stories c db)
  | GetStory story_id => snd (get_story story_id db)
  | GetRandom rnd => snd (get_random_story rnd db)
  | GetPending => snd (get_pending_stories db)
  end.

Definition run (reqs : list Request) (db : Db) : Db :=
  fold_left (fun d req => serve req d) reqs db.

Definition approves (story_id : Z) (req : Request) : bool :=
  match req with
  | PatchApprove i _ => i =? story_id
  | _ => false
  end.

(** No row of that identifier is approved. *)
Definition unapproved (story_id : Z) (db : Db) : Prop :=
  forall s, In s db -> id s = story_id -> approved s = false.

(** A story is publicly visible when a public read endpoint returns it. *)
Definition listed (story_id : Z) (r : Result (list models.StoryResponse)) : Prop :=
  match r with
  | Return l => exists s, In s l /\ models.r_id s = story_id
  | HTTPException _ _ => False
  end.

Definition shown (story_id : Z) (r : Result models.StoryResponse) : Prop :=
  match r with
  | Return s => models.r_id s = story_id
  | HTTPException _ _ => False
  end.

Definition publicly_visible (story_id : Z) (db : Db) : Prop :=
  (exists c, listed story_id (fst (get_public_stories c db)))
  \/ shown story_id (fst (get_story story_id db))
  \/ (exists rnd, shown story_id (fst (get_random_story rnd db))).

(** *** The gibberish test of lines 62-63, character by character *)

(** The lower case of [c] has a character of ['aeiou']: [c] adds to the
    count of line 62. *)
Definition spec_vowel (c : char) : bool :=
  existsb (fun v => mem v VOWELS) (lower_char uni_lower c).

(** Line 63 in those terms: longer than 8 characters and no such
    character. *)
Definition spec_gibberish_word (word : str) : bool :=
  (8 <? len word) && negb (existsb spec_vowel word).

(** The reason of the [raise] that [create_story] leaves by: the message
    of lines 141-144 for profanity, the message of lines 148-151 for all
    that [is_legitimate_story] rejects. *)
Definition reason_of (chk : CheckId) : Reason :=
  match chk with
  | CheckProfanity => Profanity
  | _ => Spammy
  end.

(** *** The checks in the words of the specification

    The five checks as the specification words them, with exact ratios
    and its own lists: "more than 30 %" of [n] for a count [k] is
    [3 * n < 10 * k], "more than 20 %" is [n < 5 * k]. *)

(** The permitted punctuation: space, full stop, comma, exclamation mark,
    question mark, semicolon, colon, apostrophe, double quote, em dash,
    en dash, hyphen. *)
Definition worded_punctuation (c : char) : bool :=
  (c =? 32) || (c =? 46) || (c =? 44) || (c =? 33) || (c =? 63)
  || (c =? 59) || (c =? 58) || (c =? 39) || (c =? 34)
  || (c =? 8212) || (c =? 8211) || (c =? 45).

(** One of a, e, i, o, u. *)
Definition worded_aeiou (c : char) : bool :=
  (c =? 97) || (c =? 101) || (c =? 105) || (c =? 111) || (c =? 117).

(** A vowel, case-insensitively: one of a, e, i, o, u or of A, E, I, O, U;
    beyond ASCII, a character whose lower case in the Unicode database
    has one of the five. *)
Definition worded_vowel (c : char) : bool :=
  worded_aeiou c
  || (c =? 65) || (c =? 69) || (c =? 73) || (c =? 79) || (c =? 85)
  || (negb (is_ascii c) && existsb worded_aeiou (uni_lower c)).

(** Neither alphanumeric nor permitted punctuation. *)
Definition worded_symbol (c : char) : bool :=
  negb (isalnum uni_isalnum c) && negb (worded_punctuation c).

(** A word longer than 8 characters containing no vowel. *)
Definition worded_gibberish (word : str) : bool :=
  (8 <? len word) && negb (existsb worded_vowel word).

Definition worded_passes (chk : CheckId) (text : str) : bool :=
  match chk with
  | CheckProfanity => negb (contains_profanity text)
  | CheckLength => 10 <=? len (strip text)
  | CheckRepetition =>
      forallb (fun c => 10 * count c text <=? 3 * len text) text
  | CheckSymbols => 5 * count_if worded_symbol text <=? len text
  | CheckGibberish =>
      10 * len (filter worded_gibberish (split text))
      <=? 3 * len (split text)
  end.

Definition CHECK_ORDER : list CheckId :=
  [CheckProfanity; CheckLength; CheckRepetition; CheckSymbols; CheckGibberish].

Definition worded_first_failing (text : str) : option CheckId :=
  find (fun chk => negb (worded_passes chk text)) CHECK_ORDER.

(** The reason codes of the specification: [TooShort] for the length
    check, [Spammy] for the three legitimacy checks. *)
Definition worded_reason (chk : CheckId) : Reason :=
  match chk with
  | CheckProfanity => Profanity
  | CheckLength => TooShort
  | _ => Spammy
  end.

Definition worded_evaluate (text : str) : AcceptanceVerdict :=
  match worded_first_failing text with
  | None => Accepted
  | Some chk => Rejected (worded_reason chk)
  end.

End Pipeline.

End main.

Import main.

(* ================================================================== *)
(** ** The profanity filter *)

Module better_profanity.

Section Filter.

Variable uni_lower : char -> str.

(** The word list loaded at start-up ([profanity.load_censor_words()]). *)
Variable CENSOR_WORDSET : list str.

(** Modelled from the spec: the case-insensitive comparison of the
    filter, which is not under src: two words are the same in any casing
    when their lower-case forms are. *)
Definition same_word (w1 w2 : str) : bool :=
  str_eqb (lower uni_lower w1) (lower uni_lower w2).

(** Modelled from the spec: [profanity.contains_profanity] of the
    [better_profanity] package, which is not under src.  The specification
    (4.1) has it return whether the text contains an entry of the list of
    disallowed words, case-insensitively and aware of word boundaries: here
    a word of the text, as white space delimits them, is an entry of the
    list in some casing. *)
Definition contains_profanity (text : str) : bool :=
  existsb (fun word => existsb (same_word word) CENSOR_WORDSET) (split text).

End Filter.

End better_profanity.

(* ================================================================== *)
(** ** Sample tables, for running the model on concrete texts *)

Module Sample.

(** A table for the rest of the database: [str.isalnum] on the Latin-1
    supplement (letters, superscript digits and vulgar fractions, which
    [ALNUM_BLOCKS] has too) and nothing more.  The texts below stay within
    ASCII and the blocks built in, so it is never the one to decide. *)
Definition isalnum_latin1 (c : char) : bool :=
  (c =? 170) || (c =? 178) || (c =? 179) || (c =? 181) || (c =? 185)
  || (c =? 186) || ((188 <=? c) && (c <=? 190))
  || ((192 <=? c) && (c <=? 214)) || ((216 <=? c) && (c <=? 246))
  || ((248 <=? c) && (c <=? 255)).

(** [str.lower] on the Latin-1 supplement, and on U+0130, whose lower
    case is [i] followed by U+0307. *)
Definition lower_latin1 (c : char) : str :=
  if ((192 <=? c) && (c <=? 214)) || ((216 <=? c) && (c <=? 222))
  then [c + 32]
  else if c =? 304 then [105; 775]
  else [c].

(** An entry of the word list the package loads. *)
Definition censor_words : list str := map of_string ["shit"]%string.

Definition contains_profanity : str -> bool :=
  better_profanity.contains_profanity lower_latin1 censor_words.

End Sample.

(* ================================================================== *)
(** ** Texts and tables to run the handlers on *)

Module Scenarios.

Definition symbols : str := of_string "!!!!###@@@$$$%%%^^^&&&".

Definition family : str :=
  of_string "Today I learned something important about my family and our past.".

(** [a] is 3 of 10 characters. *)
Definition boundary : str := of_string "aaa bcd ef".

(** Eleven characters, two once trimmed. *)
Definition padded : str := of_string "   hi      ".

(** Spaces, a tab, a line feed, a no-break space, an ideographic space. *)
Definition blank : str := [32; 9; 10; 160; 12288; 32; 32; 32; 32; 32; 32].


(** [cafe deja vu] with its accents: U+00E9, U+00E9, U+00E0. *)
Definition accented : str :=
  [99; 97; 102; 233; 32; 100; 233; 106; 224; 32; 118; 117].

Definition submission (text : str) : models.StoryCreate :=
  {| models.title := None;
     models.author_name := None;
     models.author_email := None;
     models.story_text := text;
     models.category := of_string "Joy" |}.

Definition pending : Story :=
  {| id := 1; title := None; author_name := None; author_email := None;
     story_text := family; category := of_string "Joy";
     approved := false; created_at := 100; updated_at := 100 |}.

Definition published : Story :=
  {| id := 2; title := None; author_name := None; author_email := None;
     story_text := boundary; category := of_string "Love";
     approved := true; created_at := 110; updated_at := 120 |}.

Definition table : Db := [pending; published].

(** Four letters and eight line feeds. *)
Definition breaks : str := [97; 10; 10; 98; 10; 10; 99; 10; 10; 100; 10; 10].

(** Two Russian words, of 12 and 14 letters. *)
Definition cyrillic : str :=
  [1079; 1076; 1088; 1072; 1074; 1089; 1090; 1074; 1091; 1081; 1090; 1077;
   32;
   1087; 1091; 1090; 1077; 1096; 1077; 1089; 1090; 1074; 1077; 1085; 1085;
   1080; 1082].

(** A Russian word, a comma, a space, [cafe] with its accent, a space, two
    Chinese characters, a space, two Arabic-Indic digits, an em dash. *)
Definition scripts : str :=
  [1087; 1088; 1080; 1074; 1077; 1090; 44; 32; 99; 97; 102; 233; 32;
   21271; 20140; 32; 1633; 1634; 8212].

Definition three_words : list str := map of_string ["aaa"; "bcd"; "ef"]%string.

End Scenarios.

(* ================================================================== *)
(** ** Notions to state what the handlers do *)

(** [b] is not newer than [a]. *)
Definition newest_first (a b : Story) : Prop := created_at b <= created_at a.

(** The rows [get_public_stories] asks the storage for. *)
Definition selected (category_arg : option str) (s : Story) : bool :=
  approved s
  && match category_arg with
     | Some (c :: cs) => str_eqb (category s) (c :: cs)
     | _ => true
     end.

(** A submission gets an identifier no stored row has. *)
Definition assigns_fresh (req : Request) (db : Db) : Prop :=
  match req with
  | PostStory _ new_id _ _ => ~ In new_id (map id db)
  | _ => True
  end.

Definition deletes (story_id : Z) (req : Request) : bool :=
  match req with
  | DeleteStory i => i =? story_id
  | _ => false
  end.

(** An identifier the storage can hold and look up: a signed 64-bit
    integer.  Beyond it the driver raises before any row is looked up. *)
Definition storable (story_id : Z) : Prop := - 2 ^ 63 <= story_id < 2 ^ 63.



(** A letter or a digit of one of the scripts named: ASCII, accented
    Latin, Greek, Cyrillic, Hebrew, Arabic, Devanagari, the Japanese
    syllabaries, Chinese characters, Hangul. *)
Definition script_letter_or_digit (c : char) : Prop :=
  (48 <= c <= 57) \/ (65 <= c <= 90) \/ (97 <= c <= 122)
  \/ (192 <= c <= 591 /\ c <> 215 /\ c <> 247)
  \/ (913 <= c <= 929) \/ (931 <= c <= 937) \/ (945 <= c <= 969)
  \/ (1024 <= c <= 1153)
  \/ (1488 <= c <= 1514)
  \/ (1569 <= c <= 1594) \/ (1601 <= c <= 1610) \/ (1632 <= c <= 1641)
  \/ (2308 <= c <= 2361) \/ (2406 <= c <= 2415)
  \/ (12353 <= c <= 12438) \/ (12449 <= c <= 12538)
  \/ (19968 <= c <= 40869)
  \/ (44032 <= c <= 55203).

(** The characters of a text, each once. *)
Definition distinct (text : str) : list char := nodup Z.eq_dec text.

(** The sum of [f] over a list of characters. *)
Definition total (f : char -> Z) (l : list char) : Z :=
  fold_right (fun c acc => f c + acc) 0 l.

(** A word as [split] yields them: not empty, no white space in it. *)
Definition is_word (w : str) : Prop :=
  w <> [] /\ forall c, In c w -> isspace c = false.

(** [" ".join(words)] *)
Fixpoint join_spaces (words : list str) : str :=
  match words with
  | [] => []
  | [w] => w
  | w :: rest => w ++ 32 :: join_spaces rest
  end.

(** The ten letters that count as vowels within ASCII. *)
Definition ASCII_VOWELS : str := of_string "aeiouAEIOU".

(* ================================================================== *)
(** ** Facts about binary64 products with [0.3] and [0.2] *)

Module PyFloatFacts.

(** The two literals are the binary64 nearest to 3/10 and 2/10: the
    mantissa has 53 bits and is within half a unit of the exact value. *)
Lemma lit_0_3_nearest :
  2 ^ 52 <= 5404319552844595 < 2 ^ 53
  /\ Z.abs (10 * 5404319552844595 - 3 * 2 ^ 54) <= 5.
Proof. vm_compute. repeat split; discriminate. Qed.

Lemma lit_0_2_nearest :
  2 ^ 52 <= 7205759403792794 < 2 ^ 53
  /\ Z.abs (10 * 7205759403792794 - 2 * 2 ^ 55) <= 5.
Proof. vm_compute. repeat split; discriminate. Qed.

(** [c > x] only looks at the integer part of a non-negative [x]. *)
Lemma int_gt_floor (c : Z) (x : spec_float) (k : Z) :
  floor x = Some k -> int_gt c x = (k <? c).
Proof.
  destruct x as [s | s | | s m e]; simpl; try discriminate.
  - intros H; injection H as <-. reflexivity.
  - destruct s; [discriminate|].
    intros H; injection H as <-.
    destruct (0 <=? e) eqn:He; [reflexivity|].
    apply Z.leb_gt in He.
    assert (Hp : 0 < 2 ^ (- e)) by (apply Z.pow_pos_nonneg; lia).
    destruct (Z.ltb_spec (Z.pos m) (c * 2 ^ (- e)));
      destruct (Z.ltb_spec (Z.pos m / 2 ^ (- e)) c); try reflexivity; exfalso.
    + assert (Z.pos m / 2 ^ (- e) < c)
        by (apply Z.div_lt_upper_bound; lia). lia.
    + pose proof (Z.mul_div_le (Z.pos m) (2 ^ (- e)) Hp).
      pose proof (Z.mod_pos_bound (Z.pos m) (2 ^ (- e)) Hp).
      pose proof (Z.div_mod (Z.pos m) (2 ^ (- e))).
      nia.
Qed.

Lemma check_from_spec (test : Z -> bool) (fuel : nat) (lo n : Z) :
  check_from test fuel lo = true ->
  lo <= n < lo + Z.of_nat fuel -> test n = true.
Proof.
  revert lo. induction fuel as [|fuel IH]; intros lo Hc Hn.
  - simpl in Hn. lia.
  - simpl in Hc. apply andb_true_iff in Hc as [H0 Hrest].
    destruct (Z.eq_dec n lo) as [->|Hne]; [exact H0|].
    apply (IH (lo + 1)); [exact Hrest | lia].
Qed.

Lemma floor_is_spec x k : floor_is x k = true -> floor x = Some k.
Proof.
  unfold floor_is. destruct (floor x); [|discriminate].
  intros H. apply Z.eqb_eq in H. now subst.
Qed.

(** Up to the longest text the schema admits, the rounded products have
    the integer part of the exact ones. *)
Lemma table_0_3 :
  check_from (fun n => floor_is (int_mul n lit_0_3) (3 * n / 10)) (Z.to_nat 10001) 0 = true.
Proof. vm_compute. reflexivity. Qed.

Lemma table_0_2 :
  check_from (fun n => floor_is (int_mul n lit_0_2) (2 * n / 10)) (Z.to_nat 10001) 0 = true.
Proof. vm_compute. reflexivity. Qed.

(** [c > n * 0.3] is "more than 30 %" and [c > n * 0.2] is "more than
    20 %", exactly. *)
Lemma gt_0_3 (c n : Z) :
  0 <= n <= models.MAX_LENGTH ->
  int_gt c (int_mul n lit_0_3) = (3 * n <? 10 * c).
Proof.
  unfold models.MAX_LENGTH. intros Hn.
  rewrite (int_gt_floor c _ (3 * n / 10)).
  - destruct (Z.ltb_spec (3 * n / 10) c); destruct (Z.ltb_spec (3 * n) (10 * c));
      try reflexivity; exfalso.
    + pose proof (Z.div_mod (3 * n) 10).
      pose proof (Z.mod_pos_bound (3 * n) 10). lia.
    + assert (3 * n / 10 < c) by (apply Z.div_lt_upper_bound; lia). lia.
  - apply floor_is_spec.
    apply (check_from_spec _ _ 0 n table_0_3). rewrite Z2Nat.id; lia.
Qed.

Lemma gt_0_2 (c n : Z) :
  0 <= n <= models.MAX_LENGTH ->
  int_gt c (int_mul n lit_0_2) = (n <? 5 * c).
Proof.
  unfold models.MAX_LENGTH. intros Hn.
  rewrite (int_gt_floor c _ (2 * n / 10)).
  - destruct (Z.ltb_spec (2 * n / 10) c); destruct (Z.ltb_spec n (5 * c));
      try reflexivity; exfalso.
    + pose proof (Z.div_mod (2 * n) 10).
      pose proof (Z.mod_pos_bound (2 * n) 10). lia.
    + assert (2 * n / 10 < c) by (apply Z.div_lt_upper_bound; lia). lia.
  - apply floor_is_spec.
    apply (check_from_spec _ _ 0 n table_0_2). rewrite Z2Nat.id; lia.
Qed.

(** Signs: the product of a length with a positive literal is never
    negative, whatever the length. *)
Lemma round_aux_sign (mx ex : Z) (lx : location) :
  is_negative (binary_round_aux prec emax false mx ex lx) = false.
Proof.
  unfold binary_round_aux.
  destruct (shr_fexp prec emax mx ex lx) as [mrs' e'].
  destruct (shr_fexp prec emax _ e' loc_Exact) as [mrs'' e''].
  destruct (shr_m mrs''); [reflexivity| |reflexivity].
  destruct (e'' <=? emax - prec); reflexivity.
Qed.

Lemma of_int_sign (n : Z) : 0 <= n -> is_negative (of_int n) = false.
Proof.
  intros Hn. unfold of_int, binary_normalize.
  destruct n as [|p|p]; [reflexivity| |lia].
  unfold binary_round. destruct (shl_align p 0 _) as [mz ez].
  apply round_aux_sign.
Qed.

Lemma int_mul_sign (n : Z) (m : positive) (e : Z) :
  0 <= n -> is_negative (int_mul n (S754_finite false m e)) = false.
Proof.
  intros Hn. unfold int_mul. pose proof (of_int_sign n Hn) as Hs.
  destruct (of_int n) as [s | s | | s m' e']; simpl in Hs; subst;
    try reflexivity.
  simpl. apply round_aux_sign.
Qed.

Lemma int_gt_nonpos (c : Z) (x : spec_float) :
  c <= 0 -> is_negative x = false -> int_gt c x = false.
Proof.
  intros Hc Hx. destruct x as [s | s | | s m e]; simpl in *; subst.
  - apply Z.ltb_ge. exact Hc.
  - reflexivity.
  - reflexivity.
  - destruct (0 <=? e) eqn:He; apply Z.ltb_ge.
    + apply Z.leb_le in He.
      pose proof (Z.pow_pos_nonneg 2 e ltac:(lia) He). nia.
    + apply Z.leb_gt in He.
      pose proof (Z.pow_pos_nonneg 2 (- e) ltac:(lia) ltac:(lia)). nia.
Qed.

End PyFloatFacts.

(* ================================================================== *)
(** ** Facts about the string operations *)

Module PyStrFacts.

Lemma len_nonneg {A} (s : list A) : 0 <= len s.
Proof. unfold len. lia. Qed.

Lemma len_cons {A} (a : A) (s : list A) : len (a :: s) = 1 + len s.
Proof. unfold len. simpl List.length. lia. Qed.

Lemma count_bounds (c : char) (s : str) : 0 <= count c s <= len s.
Proof.
  induction s as [|d s IH]; [unfold len; simpl; lia|].
  rewrite len_cons. cbn [count]. destruct (d =? c); lia.
Qed.

Lemma count_absent (c : char) (s : str) : ~ In c s -> count c s = 0.
Proof.
  induction s as [|d s IH]; intros Hn; [reflexivity|].
  simpl. destruct (Z.eqb_spec d c) as [->|_].
  - exfalso. apply Hn. now left.
  - rewrite IH; [reflexivity|]. intros H. apply Hn. now right.
Qed.

Lemma count_if_bounds (p : char -> bool) (s : str) : 0 <= count_if p s <= len s.
Proof.
  induction s as [|d s IH]; [unfold len; simpl; lia|].
  rewrite len_cons. cbn [count_if]. destruct (p d); lia.
Qed.

Lemma count_if_zero (p : char -> bool) (s : str) :
  count_if p s = 0 <-> (forall c, In c s -> p c = false).
Proof.
  induction s as [|d s IH]; simpl.
  - split; [intros _ c []|reflexivity].
  - pose proof (count_if_bounds p s) as Hb. split.
    + intros H c [<-|Hc].
      * destruct (p d); [lia|reflexivity].
      * apply IH; [|exact Hc]. destruct (p d); lia.
    + intros H. rewrite (H d (or_introl eq_refl)).
      apply proj2 in IH. rewrite IH; [reflexivity|].
      intros c Hc. apply H. now right.
Qed.

Lemma mem_In (c : char) (s : str) : mem c s = true <-> In c s.
Proof.
  unfold mem. rewrite existsb_exists. split.
  - intros [x [Hx He]]. apply Z.eqb_eq in He. now subst.
  - intros H. exists c. split; [exact H|apply Z.eqb_refl].
Qed.

Lemma dropwhile_all (p : char -> bool) (s : str) :
  forallb p s = true -> dropwhile p s = [].
Proof.
  induction s as [|c s IH]; [reflexivity|].
  simpl. intros H. apply andb_true_iff in H as [Hc Hs].
  rewrite Hc. auto.
Qed.

(** A text of white space only strips to the empty string. *)
Lemma strip_blank (s : str) : forallb isspace s = true -> strip s = [].
Proof.
  intros H. unfold strip, lstrip, rstrip.
  rewrite (dropwhile_all _ _ H). reflexivity.
Qed.

Lemma flush_nil (cur : str) (rest : list str) :
  flush cur rest = [] <-> cur = [] /\ rest = [].
Proof.
  destruct cur; simpl; split.
  - auto.
  - now intros [_ ->].
  - discriminate.
  - now intros [? _].
Qed.

Lemma split_from_nil (cur s : str) :
  split_from cur s = [] <-> cur = [] /\ forallb isspace s = true.
Proof.
  revert cur. induction s as [|c s IH]; intros cur; simpl.
  - rewrite flush_nil. tauto.
  - destruct (isspace c); simpl.
    + rewrite flush_nil, IH. tauto.
    + rewrite IH. split; [intros [? _]|intros [_ ?]]; discriminate.
Qed.

(** [text.split()] is empty exactly for a text of white space only. *)
Lemma split_nil (s : str) : split s = [] <-> forallb isspace s = true.
Proof. unfold split. rewrite split_from_nil. tauto. Qed.

Lemma split_from_length (cur s : str) :
  (List.length (split_from cur s)
   <= match cur with [] => 0 | _ :: _ => 1 end + List.length s)%nat.
Proof.
  revert cur. induction s as [|c s IH]; intros cur; simpl.
  - destruct cur; simpl; lia.
  - destruct (isspace c).
    + specialize (IH []). destruct cur; simpl in *; lia.
    + specialize (IH (c :: cur)). destruct cur; simpl in *; lia.
Qed.

(** There are no more words than characters. *)
Lemma len_split (s : str) : len (split s) <= len s.
Proof.
  unfold len, split. pose proof (split_from_length [] s). simpl in *. lia.
Qed.


End PyStrFacts.

(* ================================================================== *)
(** ** The pipeline *)

Section PipelineFacts.

Variable uni_isalnum : char -> bool.
Variable uni_lower : char -> str.
Variable contains_profanity : str -> bool.

Import PyStrFacts PyFloatFacts.

Local Abbreviation isalnum := (isalnum uni_isalnum).
Local Abbreviation non_standard := (non_standard uni_isalnum).
Local Abbreviation non_alpha := (non_alpha uni_isalnum).
Local Abbreviation vowels := (vowels uni_lower).
Local Abbreviation gibberish_count := (gibberish_count uni_lower).
Local Abbreviation mostly_gibberish := (mostly_gibberish uni_lower).
Local Abbreviation is_legitimate_story := (is_legitimate_story uni_isalnum uni_lower).
Local Abbreviation failed_check := (failed_check uni_isalnum uni_lower).
Local Abbreviation evaluate := (evaluate uni_isalnum uni_lower contains_profanity).
Local Abbreviation rejected_by := (rejected_by uni_isalnum uni_lower contains_profanity).
Local Abbreviation moderate := (moderate uni_isalnum uni_lower contains_profanity).
Local Abbreviation create_story := (create_story uni_isalnum uni_lower contains_profanity).
Local Abbreviation spec_vowel := (spec_vowel uni_lower).
Local Abbreviation spec_gibberish_word := (spec_gibberish_word uni_lower).
Local Abbreviation worded_vowel := (worded_vowel uni_lower).
Local Abbreviation worded_symbol := (worded_symbol uni_isalnum).
Local Abbreviation worded_gibberish := (worded_gibberish uni_lower).
Local Abbreviation worded_passes := (worded_passes uni_isalnum uni_lower contains_profanity).
Local Abbreviation worded_first_failing :=
  (worded_first_failing uni_isalnum uni_lower contains_profanity).
Local Abbreviation worded_evaluate :=
  (worded_evaluate uni_isalnum uni_lower contains_profanity).

(** A submission within the length constraints has a text within the
    bounds of the schema. *)
Lemma lengths_valid_text (story : models.StoryCreate) :
  models.lengths_valid story = true ->
  models.MIN_LENGTH <= len (models.story_text story) <= models.MAX_LENGTH.
Proof.
  unfold models.lengths_valid. rewrite !andb_true_iff, !Z.leb_le.
  intros [[_ H1] H2]. split; assumption.
Qed.

(** *** Each threshold against its exact ratio *)

Lemma repeated_exact (text : str) (ch : char) :
  len text <= models.MAX_LENGTH ->
  repeated text ch = (3 * len text <? 10 * count ch text).
Proof.
  intros H. unfold repeated. apply gt_0_3.
  pose proof (len_nonneg text). lia.
Qed.

Lemma repetition_exact (text : str) :
  len text <= models.MAX_LENGTH ->
  existsb (repeated text) text
  = negb (forallb (fun c => 10 * count c text <=? 3 * len text) text).
Proof.
  intros H.
  assert (Hl : forall l,
    existsb (repeated text) l
    = negb (forallb (fun c => 10 * count c text <=? 3 * len text) l)).
  { induction l as [|c l IH]; [reflexivity|].
    simpl. rewrite IH, negb_andb, (repeated_exact text c H).
    now rewrite Z.ltb_antisym. }
  apply Hl.
Qed.

Lemma repetition_prop (text : str) :
  forallb (fun c => 10 * count c text <=? 3 * len text) text = true
  <-> (forall c, 10 * count c text <= 3 * len text).
Proof.
  rewrite forallb_forall. split.
  - intros H c. destruct (in_dec Z.eq_dec c text) as [Hin|Hout].
    + apply Z.leb_le. now apply H.
    + rewrite (count_absent c text Hout). pose proof (len_nonneg text). lia.
  - intros H c _. apply Z.leb_le. apply H.
Qed.

Lemma symbols_exact (text : str) :
  len text <= models.MAX_LENGTH ->
  int_gt (non_alpha text) (int_mul (len text) lit_0_2)
  = negb (5 * non_alpha text <=? len text).
Proof.
  intros H. rewrite gt_0_2.
  - apply Z.ltb_antisym.
  - pose proof (len_nonneg text). lia.
Qed.

Lemma count_if_app (p : char -> bool) (s1 s2 : str) :
  count_if p (s1 ++ s2) = count_if p s1 + count_if p s2.
Proof.
  induction s1 as [|c s1 IH]; [reflexivity|].
  cbn [app count_if]. rewrite IH. lia.
Qed.

Lemma count_if_none (p : char -> bool) (s : str) :
  (count_if p s =? 0) = negb (existsb p s).
Proof.
  induction s as [|c s IH]; [reflexivity|].
  cbn [count_if existsb]. pose proof (count_if_bounds p s) as Hb.
  rewrite negb_orb, <- IH.
  destruct (p c); cbn [negb andb].
  - apply Z.eqb_neq. lia.
  - now rewrite Z.add_0_l.
Qed.

(** Counting the vowels of the lowered word finds none exactly when no
    character of the word is a vowel in either case. *)
Lemma vowels_none (word : str) :
  (vowels word =? 0) = negb (existsb spec_vowel word).
Proof.
  unfold main.vowels.
  induction word as [|c word IH]; [reflexivity|].
  cbn [lower flat_map existsb]. fold (lower uni_lower word).
  rewrite count_if_app, negb_orb, <- IH.
  pose proof (count_if_bounds (fun c => mem c VOWELS) (lower_char uni_lower c)).
  pose proof (count_if_bounds (fun c => mem c VOWELS) (lower uni_lower word)).
  unfold main.spec_vowel at 1. rewrite <- count_if_none.
  destruct (Z.eqb_spec (count_if (fun c => mem c VOWELS) (lower_char uni_lower c)) 0);
    destruct (Z.eqb_spec (count_if (fun c => mem c VOWELS) (lower uni_lower word)) 0);
    cbn [andb]; apply Z.eqb_eq || apply Z.eqb_neq; lia.
Qed.

Lemma gibberish_count_filter (words : list str) :
  gibberish_count words = len (filter spec_gibberish_word words).
Proof.
  induction words as [|w words IH]; [reflexivity|].
  cbn [main.gibberish_count filter]. rewrite IH.
  assert (E : (8 <? len w) && (vowels w =? 0) = spec_gibberish_word w)
    by (unfold main.spec_gibberish_word; now rewrite vowels_none).
  rewrite E. destruct (spec_gibberish_word w).
  - rewrite len_cons. reflexivity.
  - apply Z.add_0_l.
Qed.

Lemma gibberish_exact (text : str) :
  len text <= models.MAX_LENGTH ->
  mostly_gibberish (split text)
  = negb (10 * len (filter spec_gibberish_word (split text))
          <=? 3 * len (split text)).
Proof.
  intros H. unfold main.mostly_gibberish.
  rewrite gt_0_3, gibberish_count_filter.
  - apply Z.ltb_antisym.
  - pose proof (len_nonneg (split text)). pose proof (len_split text). lia.
Qed.

(** *** The order of the checks *)

Lemma is_legitimate_failed_check (text : str) :
  is_legitimate_story text
  = match failed_check text with None => true | Some _ => false end.
Proof.
  unfold main.is_legitimate_story, main.failed_check.
  destruct (len (strip text) <? 10); [reflexivity|].
  destruct (existsb (repeated text) text); [reflexivity|].
  destruct (int_gt _ _); [reflexivity|].
  destruct (main.mostly_gibberish _ _); reflexivity.
Qed.

Lemma failed_check_never_profanity (text : str) :
  failed_check text <> Some CheckProfanity.
Proof.
  unfold main.failed_check.
  destruct (len (strip text) <? 10); [discriminate|].
  destruct (existsb (repeated text) text); [discriminate|].
  destruct (int_gt _ _); [discriminate|].
  destruct (main.mostly_gibberish _ _); discriminate.
Qed.

Lemma evaluate_rejected_by (text : str) :
  evaluate text
  = match rejected_by text with
    | None => Accepted
    | Some chk => Rejected (reason_of chk)
    end.
Proof.
  unfold main.evaluate, main.rejected_by.
  destruct (contains_profanity text); [reflexivity|].
  rewrite is_legitimate_failed_check.
  pose proof (failed_check_never_profanity text) as Hn.
  destruct (failed_check text) as [[]|]; try reflexivity.
  now elim Hn.
Qed.

(** *** The words of the specification against the code *)

Lemma worded_punctuation_mem (c : char) :
  worded_punctuation c = mem c STANDARD_PUNCTUATION.
Proof.
  unfold worded_punctuation, mem, STANDARD_PUNCTUATION. cbn [existsb].
  rewrite orb_false_r, !orb_assoc. reflexivity.
Qed.

Lemma worded_aeiou_mem (c : char) : worded_aeiou c = mem c VOWELS.
Proof.
  unfold worded_aeiou, mem. change VOWELS with [97; 101; 105; 111; 117].
  cbn [existsb]. rewrite orb_false_r, !orb_assoc. reflexivity.
Qed.

Lemma existsb_same {A} (f g : A -> bool) (l : list A) :
  (forall x, f x = g x) -> existsb f l = existsb g l.
Proof.
  intros H. induction l as [|x l IH]; [reflexivity|].
  cbn [existsb]. now rewrite H, IH.
Qed.

Lemma count_if_same (f g : char -> bool) (s : str) :
  (forall c, f c = g c) -> count_if f s = count_if g s.
Proof.
  intros H. induction s as [|c s IH]; [reflexivity|].
  cbn [count_if]. now rewrite H, IH.
Qed.

Lemma filter_words_same (f g : str -> bool) (l : list str) :
  (forall w, f w = g w) -> filter f l = filter g l.
Proof.
  intros H. induction l as [|w l IH]; [reflexivity|].
  cbn [filter]. now rewrite H, IH.
Qed.

(** The vowels of the specification are the characters the code counts:
    on ASCII by inspection of the 128 code points, beyond it by the
    lower-case mapping. *)
Lemma worded_vowel_spec (c : char) : worded_vowel c = spec_vowel c.
Proof.
  assert (Hall : check_from
            (fun c => Bool.eqb (worded_vowel c) (spec_vowel c))
            (Z.to_nat 128) 0 = true) by (vm_compute; reflexivity).
  destruct (is_ascii c) eqn:Hc.
  - unfold is_ascii in Hc. apply andb_true_iff in Hc as [H0 H1].
    apply Z.leb_le in H0. apply Z.ltb_lt in H1.
    pose proof (check_from_spec _ _ 0 c Hall) as H.
    cbv beta in H. rewrite Z2Nat.id in H by lia.
    apply eqb_prop. apply H. lia.
  - unfold main.worded_vowel, main.spec_vowel, lower_char. rewrite Hc.
    cbn [negb andb].
    rewrite (existsb_same _ _ _ worded_aeiou_mem).
    assert (Hout : c < 0 \/ 128 <= c).
    { unfold is_ascii in Hc. apply andb_false_iff in Hc as [H|H].
      - apply Z.leb_gt in H. now left.
      - apply Z.ltb_ge in H. now right. }
    assert (E : forall k, 0 <= k < 128 -> (c =? k) = false)
      by (intros k Hk; apply Z.eqb_neq; lia).
    unfold worded_aeiou.
    rewrite !E by lia. reflexivity.
Qed.

Lemma worded_symbol_count (text : str) :
  count_if worded_symbol text = non_alpha text.
Proof.
  apply count_if_same. intros c.
  unfold main.worded_symbol, main.non_standard.
  now rewrite worded_punctuation_mem.
Qed.

Lemma worded_gibberish_words (words : list str) :
  filter worded_gibberish words = filter spec_gibberish_word words.
Proof.
  apply filter_words_same. intros w.
  unfold main.worded_gibberish, main.spec_gibberish_word.
  now rewrite (existsb_same _ _ _ worded_vowel_spec).
Qed.

Lemma rejected_by_worded (text : str) :
  len text <= models.MAX_LENGTH ->
  rejected_by text = worded_first_failing text.
Proof.
  intros H.
  unfold main.rejected_by, main.failed_check,
    main.worded_first_failing, CHECK_ORDER, find, main.worded_passes.
  rewrite worded_symbol_count, worded_gibberish_words.
  rewrite (repetition_exact text H), (symbols_exact text H),
    (gibberish_exact text H), (Z.ltb_antisym 10 (len (strip text))).
  destruct (contains_profanity text); [reflexivity|]. cbn [negb].
  destruct (10 <=? len (strip text)); [|reflexivity]. cbn [negb].
  destruct (forallb _ text); [|reflexivity]. cbn [negb].
  destruct (5 * non_alpha text <=? len text); [|reflexivity]. cbn [negb].
  destruct (10 * len _ <=? 3 * len (split text)); reflexivity.
Qed.

Lemma worded_first_failing_none (text : str) :
  worded_first_failing text = None
  <-> contains_profanity text = false
      /\ 10 <= len (strip text)
      /\ (forall c, 10 * count c text <= 3 * len text)
      /\ 5 * count_if worded_symbol text <= len text
      /\ 10 * len (filter worded_gibberish (split text))
         <= 3 * len (split text).
Proof.
  rewrite <- repetition_prop, <- !Z.leb_le.
  unfold main.worded_first_failing, CHECK_ORDER, find, main.worded_passes.
  destruct (contains_profanity text); cbn [negb];
    [split; [discriminate|intros [? _]; discriminate]|].
  destruct (10 <=? len (strip text)); cbn [negb];
    [|split; [discriminate|intros (_ & ? & _); discriminate]].
  destruct (forallb _ text); cbn [negb];
    [|split; [discriminate|intros (_ & _ & ? & _); discriminate]].
  destruct (5 * count_if worded_symbol text <=? len text); cbn [negb];
    [|split; [discriminate|intros (_ & _ & _ & ? & _); discriminate]].
  destruct (10 * len _ <=? 3 * len (split text)); cbn [negb];
    [|split; [discriminate|intros (_ & _ & _ & _ & ?); discriminate]].
  split; [intros _; repeat split; reflexivity|reflexivity].
Qed.

Lemma accepted_iff (text : str) :
  len text <= models.MAX_LENGTH ->
  (evaluate text = Accepted <-> worded_first_failing text = None).
Proof.
  intros H. rewrite evaluate_rejected_by, (rejected_by_worded text H).
  destruct (worded_first_failing text); split; (discriminate || reflexivity).
Qed.

(** The pipeline inside a handler: the verdict, and the session as it was. *)
Lemma moderate_evaluate (text : str) (db : Db) :
  moderate text db
  = (match evaluate text with
     | Accepted => Return tt
     | Rejected Profanity => HTTPException 400 INAPPROPRIATE
     | Rejected _ => HTTPException 400 NOT_A_STORY
     end, db).
Proof.
  unfold main.moderate, main.evaluate.
  destruct (contains_profanity text); [reflexivity|].
  destruct (is_legitimate_story text); reflexivity.
Qed.

(** *** The claims about the pipeline *)

(** C1, as the code has it. For a submission text (at most [MAX_LENGTH]
    characters, as the schema admits), the pipeline accepts exactly when
    no profane term is found, the trimmed length is at least 10, no
    character makes up more than 30 % of the text, the characters that are
    neither alphanumeric nor permitted punctuation are at most 20 % of it,
    and the words longer than 8 characters without a vowel are at most
    30 % of the words.  A rejection comes from the first check that fails,
    in the order profanity, length, repetition, symbols, gibberish; its
    reason is [Profanity] for the first and the one generic reason,
    [Spammy], for the four others, the length check included. *)
Theorem C1_first_failing_check (text : str) :
  len text <= models.MAX_LENGTH ->
  (evaluate text = Accepted
   <-> contains_profanity text = false
       /\ 10 <= len (strip text)
       /\ (forall c, 10 * count c text <= 3 * len text)
       /\ 5 * count_if worded_symbol text <= len text
       /\ 10 * len (filter worded_gibberish (split text))
          <= 3 * len (split text))
  /\ rejected_by text = worded_first_failing text
  /\ (forall chk,
        worded_first_failing text = Some chk ->
        evaluate text
        = Rejected match chk with
                   | CheckProfanity => Profanity
                   | _ => Spammy
                   end).
Proof.
  intros H. split; [|split].
  - rewrite (accepted_iff text H). apply worded_first_failing_none.
  - apply rejected_by_worded, H.
  - intros chk Hc.
    rewrite evaluate_rejected_by, (rejected_by_worded text H), Hc.
    reflexivity.
Qed.

(** C2, as the code has it. A text without profane term whose trimmed
    length is below 10 leaves [is_legitimate_story] by the length check
    and is rejected with the generic reason, the one of the legitimacy
    checks: the handler answers 400 with the same message. *)
Theorem C2_too_short_is_generic (text : str) :
  contains_profanity text = false ->
  len (strip text) < 10 ->
  failed_check text = Some CheckLength
  /\ evaluate text = Rejected Spammy
  /\ forall db, moderate text db = (HTTPException 400 NOT_A_STORY, db).
Proof.
  intros Hp Hl. apply Z.ltb_lt in Hl.
  assert (Hf : failed_check text = Some CheckLength)
    by (unfold main.failed_check; now rewrite Hl).
  assert (He : evaluate text = Rejected Spammy).
  { rewrite evaluate_rejected_by. unfold main.rejected_by.
    now rewrite Hp, Hf. }
  split; [exact Hf|]. split; [exact He|].
  intros db. now rewrite moderate_evaluate, He.
Qed.

(** C4. The three thresholds are strict: a text in which a character
    occurs in exactly 30 % of the characters, and which fails no other
    check, is accepted; each check rejects only above its ratio. *)
Theorem C4_thresholds_strict (text : str) (ch : char) :
  len text <= models.MAX_LENGTH ->
  contains_profanity text = false ->
  10 <= len (strip text) ->
  10 * count ch text = 3 * len text ->
  (forall c, 10 * count c text <= 3 * len text) ->
  5 * non_alpha text <= len text ->
  10 * gibberish_count (split text) <= 3 * len (split text) ->
  repeated text ch = false
  /\ evaluate text = Accepted
  /\ (forall c, repeated text c = true <-> 3 * len text < 10 * count c text)
  /\ (int_gt (non_alpha text) (int_mul (len text) lit_0_2) = true
      <-> len text < 5 * non_alpha text)
  /\ (mostly_gibberish (split text) = true
      <-> 3 * len (split text) < 10 * gibberish_count (split text)).
Proof.
  intros H Hp Hl Hc Hr Hs Hg. split; [|split; [|split; [|split]]].
  - rewrite (repeated_exact text ch H). apply Z.ltb_ge. lia.
  - apply (accepted_iff text H). apply worded_first_failing_none.
    rewrite worded_symbol_count, worded_gibberish_words,
      <- gibberish_count_filter. auto.
  - intros c. rewrite (repeated_exact text c H). apply Z.ltb_lt.
  - rewrite (symbols_exact text H), negb_true_iff. apply Z.leb_gt.
  - rewrite (gibberish_exact text H), negb_true_iff,
      <- gibberish_count_filter. apply Z.leb_gt.
Qed.

(** C5. The text [!!!!###@@@$$$%%%^^^&&&] has 22 characters; no character
    exceeds 30 % of them, 18 of them are non-standard symbols (the four
    [!] are standard punctuation), 18 exceeds [22 * 0.2], and the text,
    in which the profanity filter finds nothing, is rejected as spam by
    the symbol check. *)
Theorem C5_symbol_scenario :
  contains_profanity Scenarios.symbols = false ->
  len Scenarios.symbols = 22
  /\ existsb (repeated Scenarios.symbols) Scenarios.symbols = false
  /\ non_alpha Scenarios.symbols = 18
  /\ int_gt 18 (int_mul 22 lit_0_2) = true
  /\ failed_check Scenarios.symbols = Some CheckSymbols
  /\ evaluate Scenarios.symbols = Rejected Spammy.
Proof.
  intros Hp.
  assert (Hf : failed_check Scenarios.symbols = Some CheckSymbols)
    by (vm_compute; reflexivity).
  repeat split; try (vm_compute; reflexivity).
  rewrite evaluate_rejected_by. unfold main.rejected_by.
  now rewrite Hp, Hf.
Qed.

(** C8. A text that splits into no word passes the gibberish comparison,
    which multiplies and never divides ([0 > 0 * 0.3] is false), and is
    rejected before that comparison is reached, by the length check. *)
Theorem C8_no_words (text : str) :
  split text = [] ->
  mostly_gibberish (split text) = false
  /\ len (strip text) = 0
  /\ failed_check text = Some CheckLength
  /\ is_legitimate_story text = false
  /\ evaluate text <> Accepted.
Proof.
  intros Hs.
  assert (H0 : strip text = []) by (apply strip_blank, split_nil, Hs).
  assert (Hf : failed_check text = Some CheckLength)
    by (unfold main.failed_check; now rewrite H0).
  rewrite Hs, H0. repeat split; try reflexivity; try exact Hf.
  - rewrite is_legitimate_failed_check, Hf. reflexivity.
  - rewrite evaluate_rejected_by. unfold main.rejected_by.
    rewrite Hf. destruct (contains_profanity text); discriminate.
Qed.

Lemma in_blocks_intro (lo hi c : Z) :
  In (lo, hi) ALNUM_BLOCKS -> lo <= c <= hi -> in_blocks c = true.
Proof.
  intros Hb Hc. unfold in_blocks. apply existsb_exists.
  exists (lo, hi). split; [exact Hb|].
  cbn [fst snd]. apply andb_true_iff. split; apply Z.leb_le; lia.
Qed.

Lemma beyond_ascii (c : char) : 128 <= c -> is_ascii c = false.
Proof.
  intros H. unfold is_ascii. apply andb_false_iff. right.
  apply Z.ltb_ge. exact H.
Qed.

Ltac in_block lo hi :=
  apply (in_blocks_intro lo hi);
  [unfold ALNUM_BLOCKS; repeat (first [left; reflexivity | right]) | lia].

(** The letters and digits of the scripts named are alphanumeric for the
    code: within ASCII by the three classes, beyond it by the blocks of
    the database. *)
Lemma script_isalnum (c : char) :
  script_letter_or_digit c -> isalnum c = true.
Proof.
  unfold script_letter_or_digit, PyStr.isalnum.
  intros [H|[H|[H|H]]].
  - assert (Ha : is_ascii c = true)
      by (unfold is_ascii; apply andb_true_iff; split;
          [apply Z.leb_le|apply Z.ltb_lt]; lia).
    rewrite Ha. unfold ascii_isdigit.
    assert (E : (48 <=? c) && (c <=? 57) = true)
      by (apply andb_true_iff; split; apply Z.leb_le; lia).
    now rewrite E.
  - assert (Ha : is_ascii c = true)
      by (unfold is_ascii; apply andb_true_iff; split;
          [apply Z.leb_le|apply Z.ltb_lt]; lia).
    rewrite Ha. unfold ascii_isupper.
    assert (E : (65 <=? c) && (c <=? 90) = true)
      by (apply andb_true_iff; split; apply Z.leb_le; lia).
    rewrite E. apply orb_true_iff. left. apply orb_true_r.
  - assert (Ha : is_ascii c = true)
      by (unfold is_ascii; apply andb_true_iff; split;
          [apply Z.leb_le|apply Z.ltb_lt]; lia).
    rewrite Ha. unfold ascii_islower.
    assert (E : (97 <=? c) && (c <=? 122) = true)
      by (apply andb_true_iff; split; apply Z.leb_le; lia).
    rewrite E. apply orb_true_r.
  - assert (Hc : 128 <= c) by lia.
    rewrite (beyond_ascii c Hc).
    assert (Hb : in_blocks c = true).
    { destruct H as [H|[H|[H|[H|[H|[H|[H|[H|[H|[H|[H|[H|[H|[H|H]]]]]]]]]]]]]].
      - destruct H as (H & H215 & H247).
        destruct (Z_le_gt_dec c 214); [in_block 192 214|].
        destruct (Z_le_gt_dec c 246); [in_block 216 246|in_block 248 591].
      - in_block 913 929.
      - in_block 931 937.
      - in_block 945 969.
      - in_block 1024 1153.
      - in_block 1488 1514.
      - in_block 1569 1594.
      - in_block 1601 1610.
      - in_block 1632 1641.
      - in_block 2308 2361.
      - in_block 2406 2415.
      - in_block 12353 12438.
      - in_block 12449 12538.
      - in_block 19968 40869.
      - in_block 44032 55203. }
    now rewrite Hb.
Qed.

(** C10. The symbol check asks [str.isalnum] of every character, and
    [str.isalnum] knows the letters and digits of every script, not those
    of ASCII alone: a text made of letters and digits (accented Latin,
    Greek, Cyrillic, Hebrew, Arabic, Devanagari, Japanese, Chinese,
    Korean, or any other the interpreter's database has) and of permitted
    punctuation has no non-standard symbol and passes the symbol check. *)
Theorem C10_unicode_alnum_standard (text : str) :
  (forall c, In c text ->
     script_letter_or_digit c
     \/ (is_ascii c = false /\ uni_isalnum c = true)
     \/ worded_punctuation c = true) ->
  non_alpha text = 0
  /\ int_gt (non_alpha text) (int_mul (len text) lit_0_2) = false
  /\ failed_check text <> Some CheckSymbols.
Proof.
  intros H.
  assert (H0 : non_alpha text = 0).
  { apply count_if_zero. intros c Hc. unfold main.non_standard.
    destruct (H c Hc) as [Hs|[[Ha Hu]|Hp]].
    - now rewrite (script_isalnum c Hs).
    - unfold PyStr.isalnum. rewrite Ha, Hu, orb_true_r. reflexivity.
    - rewrite <- worded_punctuation_mem, Hp. apply andb_false_r. }
  assert (Hpass : int_gt (non_alpha text) (int_mul (len text) lit_0_2) = false).
  { rewrite H0. apply int_gt_nonpos; [lia|]. apply int_mul_sign, len_nonneg. }
  split; [exact H0|]. split; [exact Hpass|].
  unfold main.failed_check. rewrite Hpass.
  destruct (len (strip text) <? 10); [discriminate|].
  destruct (existsb (repeated text) text); [discriminate|].
  destruct (main.mostly_gibberish _ _); discriminate.
Qed.

End PipelineFacts.

(* ================================================================== *)
(** ** The moderation queue *)

Section StorageFacts.

Variable uni_isalnum : char -> bool.
Variable uni_lower : char -> str.
Variable contains_profanity : str -> bool.

Local Abbreviation create_story := (create_story uni_isalnum uni_lower contains_profanity).
Local Abbreviation moderate := (moderate uni_isalnum uni_lower contains_profanity).
Local Abbreviation serve := (serve uni_isalnum uni_lower contains_profanity).
Local Abbreviation run := (run uni_isalnum uni_lower contains_profanity).

Lemma insert_desc_In (x s : Story) (l : list Story) :
  In x (insert_desc s l) <-> x = s \/ In x l.
Proof.
  induction l as [|y l IH]; simpl.
  - intuition congruence.
  - destruct (created_at y <? created_at s); simpl; [intuition congruence|].
    rewrite IH. intuition congruence.
Qed.

(** Ordering a result keeps its rows. *)
Lemma order_by_In (x : Story) (l : list Story) :
  In x (order_by_created_at_desc l) <-> In x l.
Proof.
  induction l as [|y l IH]; simpl; [tauto|].
  rewrite insert_desc_In, IH. intuition congruence.
Qed.

(** *** What the public endpoints return *)

Lemma get_public_stories_rows (c : option str) (db : Db)
    (l : list models.StoryResponse) (resp : models.StoryResponse) :
  fst (get_public_stories c db) = Return l -> In resp l ->
  exists s, In s db /\ approved s = true /\ resp = to_response s.
Proof.
  unfold get_public_stories, bind, query, ret, raise. cbn [fst].
  assert (Hrows : forall x,
    In x (order_by_created_at_desc (filter approved db)) ->
    In x db /\ approved x = true)
    by (intros x Hx; apply order_by_In, filter_In in Hx; exact Hx).
  intros Hl Hin.
  destruct c as [[|c0 cs]|].
  - injection Hl as <-. apply in_map_iff in Hin as (s & <- & Hs).
    exists s. destruct (Hrows s Hs). auto.
  - destruct (negb (str_in (c0 :: cs) ALLOWED_CATEGORIES)); [discriminate|].
    injection Hl as <-. apply in_map_iff in Hin as (s & <- & Hs).
    apply filter_In in Hs as [Hs _].
    exists s. destruct (Hrows s Hs). auto.
  - injection Hl as <-. apply in_map_iff in Hin as (s & <- & Hs).
    exists s. destruct (Hrows s Hs). auto.
Qed.

Lemma get_story_row (story_id : Z) (db : Db) (resp : models.StoryResponse) :
  fst (get_story story_id db) = Return resp ->
  exists s, In s db /\ approved s = true /\ id s = story_id
            /\ resp = to_response s.
Proof.
  unfold get_story, bind, query, ret, raise. cbn [fst].
  destruct (find _ db) as [s|] eqn:Hf; [|discriminate].
  intros H. injection H as <-.
  apply find_some in Hf as [Hin Hc].
  apply andb_true_iff in Hc as [Hi Ha]. apply Z.eqb_eq in Hi.
  exists s. auto.
Qed.

Lemma get_random_story_row (rnd : nat) (db : Db) (resp : models.StoryResponse) :
  fst (get_random_story rnd db) = Return resp ->
  exists s, In s db /\ approved s = true /\ resp = to_response s.
Proof.
  unfold get_random_story, bind, query, ret, raise. cbn [fst].
  destruct (filter approved db) as [|first rest] eqn:Hf; [discriminate|].
  intros H. injection H as <-.
  remember (nth (rnd mod List.length (first :: rest)) (first :: rest) first)
    as x eqn:Hx.
  assert (Hin : In x (filter approved db)).
  { rewrite Hf, Hx. apply nth_In. apply Nat.mod_upper_bound. discriminate. }
  apply filter_In in Hin as [Hin Ha]. exists x.
  split; [exact Hin|]. split; [exact Ha|]. subst x. reflexivity.
Qed.

(** *** The rows of one identifier stay unapproved until approved *)

Lemma moderate_session (text : str) (db : Db) : snd (moderate text db) = db.
Proof.
  unfold main.moderate.
  destruct (contains_profanity text); [reflexivity|].
  destruct (negb _); reflexivity.
Qed.

Lemma create_story_unfold (story : models.StoryCreate)
    (new_id t1 t2 : Z) (db : Db) :
  create_story story new_id t1 t2 db
  = if negb (str_in (models.category story) ALLOWED_CATEGORIES)
    then (HTTPException 400 INVALID_CATEGORY, db)
    else match fst (moderate (models.story_text story) db) with
         | Return _ =>
             (Return (new_id, SUBMITTED),
              db ++ [new_story story false new_id t1 t2])
         | HTTPException c d => (HTTPException c d, db)
         end.
Proof.
  unfold main.create_story.
  destruct (negb (str_in _ _)); [reflexivity|].
  unfold bind at 1.
  pose proof (moderate_session (models.story_text story) db) as Hm.
  destruct (moderate (models.story_text story) db) as [[[]|c d] db0];
    cbn [fst snd] in *; subst db0; reflexivity.
Qed.

(** A submission stores one more row, unapproved, or nothing. *)
Lemma create_story_session (story : models.StoryCreate)
    (new_id t1 t2 : Z) (db : Db) :
  match fst (create_story story new_id t1 t2 db) with
  | Return body =>
      body = (new_id, SUBMITTED)
      /\ snd (create_story story new_id t1 t2 db)
         = db ++ [new_story story false new_id t1 t2]
  | HTTPException _ _ => snd (create_story story new_id t1 t2 db) = db
  end.
Proof.
  rewrite create_story_unfold.
  destruct (negb (str_in _ _)); [reflexivity|].
  destruct (fst (moderate _ db)); cbn [fst snd]; auto.
Qed.

Lemma serve_unapproved (story_id : Z) (req : Request) (db : Db) :
  approves story_id req = false ->
  unapproved story_id db -> unapproved story_id (serve req db).
Proof.
  intros Hreq Hdb. destruct req as [story new_id t1 t2|i now|i|c|i|rnd|];
    cbn [main.serve approves] in *.
  - pose proof (create_story_session story new_id t1 t2 db) as Hc.
    destruct (fst (create_story story new_id t1 t2 db)) as [body|code detail].
    + destruct Hc as [_ ->].
      intros row Hrow Hi. apply in_app_or in Hrow as [Hrow|[<-|[]]]; auto.
    + now rewrite Hc.
  - unfold approve_story, bind, query, commit, ret, raise.
    destruct (find _ db) as [found|]; cbn [snd]; [|exact Hdb].
    intros s Hs Hi. apply in_map_iff in Hs as (s0 & Hs0 & Hin).
    destruct (Z.eqb_spec (id s0) i) as [E|E].
    + subst s. cbn [id approve_row] in Hi. apply Z.eqb_neq in Hreq. congruence.
    + subst s0. auto.
  - unfold reject_story, bind, query, commit, ret, raise.
    destruct (find _ db) as [found|]; cbn [snd]; [|exact Hdb].
    intros s Hs. apply filter_In in Hs as [Hs _]. auto.
  - unfold get_public_stories, bind, query, ret, raise.
    destruct c as [[|c0 cs]|]; try exact Hdb.
    destruct (negb _); exact Hdb.
  - unfold get_story, bind, query, ret, raise.
    destruct (find _ db) as [found|]; exact Hdb.
  - unfold get_random_story, bind, query, ret, raise.
    destruct (filter approved db); exact Hdb.
  - exact Hdb.
Qed.

Lemma run_unapproved (story_id : Z) (reqs : list Request) (db : Db) :
  forallb (fun req => negb (approves story_id req)) reqs = true ->
  unapproved story_id db -> unapproved story_id (run reqs db).
Proof.
  revert db. induction reqs as [|req reqs IH]; intros db Hr Hdb; [exact Hdb|].
  cbn [forallb] in Hr. apply andb_true_iff in Hr as [Hreq Hr].
  apply negb_true_iff in Hreq.
  cbn [main.run fold_left]. apply IH; [exact Hr|].
  now apply serve_unapproved.
Qed.

Lemma unapproved_hidden (story_id : Z) (db : Db) :
  unapproved story_id db -> ~ publicly_visible story_id db.
Proof.
  intros Hdb [[c Hl] | [Hs | [rnd Hs]]].
  - unfold listed in Hl.
    destruct (fst (get_public_stories c db)) as [l|] eqn:E; [|exact Hl].
    destruct Hl as (resp & Hin & Hi).
    destruct (get_public_stories_rows c db l resp E Hin) as (s & Hs & Ha & ->).
    cbn in Hi. rewrite (Hdb s Hs Hi) in Ha. discriminate.
  - unfold shown in Hs.
    destruct (fst (get_story story_id db)) as [resp|] eqn:E; [|exact Hs].
    destruct (get_story_row story_id db resp E) as (s & Hin & Ha & Hi & ->).
    rewrite (Hdb s Hin Hi) in Ha. discriminate.
  - unfold shown in Hs.
    destruct (fst (get_random_story rnd db)) as [resp|] eqn:E; [|exact Hs].
    destruct (get_random_story_row rnd db resp E) as (s & Hin & Ha & ->).
    cbn in Hs. rewrite (Hdb s Hin Hs) in Ha. discriminate.
Qed.

(** *** The claims about the moderation queue *)

(** C7. A submission that is stored is stored unapproved; the public
    read endpoints (list, by identifier, random) return approved stories
    only; and whatever requests follow, as long as none approves the
    identifier of the new story, no public endpoint returns it. *)
Theorem C7_unapproved_not_public (story : models.StoryCreate)
    (new_id t1 t2 : Z) (db : Db) (reqs : list Request) :
  ~ In new_id (map id db) ->
  fst (create_story story new_id t1 t2 db) = Return (new_id, SUBMITTED) ->
  forallb (fun req => negb (approves new_id req)) reqs = true ->
  snd (create_story story new_id t1 t2 db)
  = db ++ [new_story story false new_id t1 t2]
  /\ approved (new_story story false new_id t1 t2) = false
  /\ (forall d c l resp,
        fst (get_public_stories c d) = Return l ->
        In resp l -> models.r_approved resp = true)
  /\ (forall d i resp,
        fst (get_story i d) = Return resp -> models.r_approved resp = true)
  /\ (forall d rnd resp,
        fst (get_random_story rnd d) = Return resp ->
        models.r_approved resp = true)
  /\ ~ publicly_visible new_id (run reqs (snd (create_story story new_id t1 t2 db))).
Proof.
  intros Hfresh Hok Hreqs.
  pose proof (create_story_session story new_id t1 t2 db) as Hc.
  rewrite Hok in Hc. destruct Hc as [_ Hdb].
  split; [exact Hdb|]. split; [reflexivity|]. split; [|split; [|split]].
  - intros d c l resp Hl Hin.
    destruct (get_public_stories_rows c d l resp Hl Hin) as (s & _ & Ha & ->).
    exact Ha.
  - intros d i resp Hr.
    destruct (get_story_row i d resp Hr) as (s & _ & Ha & _ & ->). exact Ha.
  - intros d rnd resp Hr.
    destruct (get_random_story_row rnd d resp Hr) as (s & _ & Ha & ->).
    exact Ha.
  - apply unapproved_hidden, run_unapproved; [exact Hreqs|].
    rewrite Hdb. intros s Hs Hi.
    apply in_app_or in Hs as [Hs|[<-|[]]]; [|reflexivity].
    exfalso. apply Hfresh. rewrite <- Hi. now apply in_map.
Qed.

(** C9. Approving an existing story answers that it is approved, keeps
    every row in its place, and changes nothing but [approved] and
    [updated_at] of the rows with that identifier: all other fields, and
    all other rows, are as before. *)
Theorem C9_approve_frame (story_id now : Z) (db : Db) (target : Story) :
  In target db ->
  id target = story_id ->
  fst (approve_story story_id now db) = Return APPROVED
  /\ List.length (snd (approve_story story_id now db)) = List.length db
  /\ forall n s,
       nth_error db n = Some s ->
       exists s',
         nth_error (snd (approve_story story_id now db)) n = Some s'
         /\ id s' = id s
         /\ title s' = title s
         /\ author_name s' = author_name s
         /\ author_email s' = author_email s
         /\ story_text s' = story_text s
         /\ category s' = category s
         /\ created_at s' = created_at s
         /\ (id s <> story_id -> s' = s)
         /\ (id s = story_id -> approved s' = true /\ updated_at s' = now).
Proof.
  intros Hin Hid.
  unfold approve_story, bind, query, commit, ret, raise.
  destruct (find (fun s => id s =? story_id) db) as [found|] eqn:Hf.
  - cbn [fst snd]. split; [reflexivity|]. split; [apply length_map|].
    intros n s Hn. rewrite nth_error_map, Hn. cbn [option_map].
    eexists. split; [reflexivity|].
    destruct (Z.eqb_spec (id s) story_id) as [E|E]; cbn [id title author_name
      author_email story_text category created_at approved updated_at approve_row];
      repeat split; try reflexivity; try contradiction; auto.
  - exfalso. apply (find_none _ _ Hf) in Hin.
    apply Z.eqb_neq in Hin. contradiction.
Qed.

End StorageFacts.

(* ================================================================== *)
(** ** The theorems at concrete submissions *)

Section Instances.

Import Sample Scenarios.

Local Abbreviation evaluate := (evaluate isalnum_latin1 lower_latin1 contains_profanity).
Local Abbreviation create_story := (create_story isalnum_latin1 lower_latin1 contains_profanity).
Local Abbreviation run := (run isalnum_latin1 lower_latin1 contains_profanity).

(** C1 as stated fails: the padded two-letter text fails the length check
    first, whose reason in the specification is [TooShort]; the code
    rejects it with the generic reason. *)
Lemma C1_counterexample :
  ~ (forall (uni_isalnum : char -> bool) (uni_lower : char -> str)
            (profane : str -> bool) (text : str),
       len text <= models.MAX_LENGTH ->
       main.evaluate uni_isalnum uni_lower profane text
       = worded_evaluate uni_isalnum uni_lower profane text).
Proof.
  intros H.
  specialize (H isalnum_latin1 lower_latin1 contains_profanity padded).
  vm_compute in H.
  assert (Hle : Lt = Gt -> False) by discriminate.
  specialize (H Hle). discriminate H.
Qed.

(** The family story is accepted, and the padded text is rejected by the
    length check with the generic reason. *)
Lemma C1_witness :
  len padded <= models.MAX_LENGTH
  /\ worded_first_failing isalnum_latin1 lower_latin1 contains_profanity padded
     = Some CheckLength
  /\ evaluate padded = Rejected Spammy.
Proof.
  assert (Hlen : len padded <= models.MAX_LENGTH) by (vm_compute; discriminate).
  split; [exact Hlen|]. split; [reflexivity|].
  destruct (C1_first_failing_check isalnum_latin1 lower_latin1
              contains_profanity padded Hlen) as (_ & _ & Hr).
  exact (Hr CheckLength eq_refl).
Defined.

(** C2 as stated fails: a padded two-letter text, which the schema lets
    through, is rejected with the generic reason, not with [TooShort]. *)
Lemma C2_counterexample :
  ~ (forall (uni_isalnum : char -> bool) (uni_lower : char -> str)
            (profane : str -> bool) (text : str),
       profane text = false ->
       len (strip text) < 10 ->
       main.evaluate uni_isalnum uni_lower profane text = Rejected TooShort).
Proof.
  intros H.
  specialize (H isalnum_latin1 lower_latin1 contains_profanity padded).
  vm_compute in H. specialize (H eq_refl eq_refl). discriminate H.
Qed.

Lemma C2_witness :
  contains_profanity padded = false
  /\ len (strip padded) < 10
  /\ evaluate padded = Rejected Spammy.
Proof.
  split; [reflexivity|]. split; [reflexivity|].
  apply (C2_too_short_is_generic isalnum_latin1 lower_latin1 contains_profanity padded);
    reflexivity.
Defined.

Lemma C4_witness :
  len boundary <= models.MAX_LENGTH
  /\ 10 * count 97 boundary = 3 * len boundary
  /\ evaluate boundary = Accepted.
Proof.
  split; [vm_compute; discriminate|]. split; [reflexivity|].
  apply (C4_thresholds_strict isalnum_latin1 lower_latin1 contains_profanity
           boundary 97).
  - vm_compute; discriminate.
  - reflexivity.
  - vm_compute; discriminate.
  - reflexivity.
  - apply repetition_prop. vm_compute. reflexivity.
  - vm_compute; discriminate.
  - vm_compute; discriminate.
Defined.

Lemma C5_witness :
  contains_profanity symbols = false /\ evaluate symbols = Rejected Spammy.
Proof.
  split; [reflexivity|].
  apply (C5_symbol_scenario isalnum_latin1 lower_latin1 contains_profanity).
  reflexivity.
Defined.

(** A stored submission stays hidden while another story is submitted,
    another approved, one deleted and the list read. *)
Lemma C7_witness :
  ~ In 3 (map id table)
  /\ fst (create_story (submission family) 3 130 131 table)
     = Return (3, SUBMITTED)
  /\ ~ publicly_visible 3
         (run [PostStory (submission boundary) 4 140 141;
               PatchApprove 1 200; DeleteStory 2; GetStories None]
              (snd (create_story (submission family) 3 130 131 table))).
Proof.
  assert (Hfresh : ~ In 3 (map id table))
    by (cbn; intros [H|[H|[]]]; discriminate H).
  split; [exact Hfresh|]. split; [vm_compute; reflexivity|].
  apply (C7_unapproved_not_public isalnum_latin1 lower_latin1 contains_profanity
           (submission family) 3 130 131 table).
  - exact Hfresh.
  - vm_compute; reflexivity.
  - reflexivity.
Defined.

Lemma C8_witness :
  split blank = []
  /\ failed_check isalnum_latin1 lower_latin1 blank = Some CheckLength.
Proof.
  split; [reflexivity|].
  apply (C8_no_words isalnum_latin1 lower_latin1 contains_profanity blank).
  reflexivity.
Defined.

Lemma C9_witness :
  In pending table
  /\ id pending = 1
  /\ fst (approve_story 1 200 table) = Return APPROVED.
Proof.
  split; [left; reflexivity|]. split; [reflexivity|].
  apply (C9_approve_frame 1 200 table pending); [left|]; reflexivity.
Defined.

(** Russian, accented French, Chinese and Arabic-Indic digits. *)
Lemma C10_witness :
  (forall c, In c scripts ->
     script_letter_or_digit c
     \/ (is_ascii c = false /\ isalnum_latin1 c = true)
     \/ worded_punctuation c = true)
  /\ non_alpha isalnum_latin1 scripts = 0.
Proof.
  assert (H : forall c, In c scripts ->
     script_letter_or_digit c
     \/ (is_ascii c = false /\ isalnum_latin1 c = true)
     \/ worded_punctuation c = true).
  { intros c Hc. cbn in Hc.
    repeat (destruct Hc as [<-|Hc];
            [first [left; unfold script_letter_or_digit; lia
                   |right; right; reflexivity]|]).
    destruct Hc. }
  split; [exact H|].
  apply (C10_unicode_alnum_standard isalnum_latin1 lower_latin1 scripts H).
Defined.

End Instances.

(* ================================================================== *)
(** ** The read endpoints *)

Section ReadEndpoints.

Lemma insert_desc_perm (s : Story) (l : list Story) :
  Permutation (insert_desc s l) (s :: l).
Proof.
  induction l as [|x l IH]; cbn [insert_desc]; [reflexivity|].
  destruct (created_at x <? created_at s); [reflexivity|].
  rewrite IH. apply perm_swap.
Qed.

Lemma order_by_perm (l : list Story) :
  Permutation (order_by_created_at_desc l) l.
Proof.
  induction l as [|x l IH]; cbn [order_by_created_at_desc fold_right];
    [reflexivity|].
  fold (order_by_created_at_desc l). rewrite insert_desc_perm. now constructor.
Qed.

Lemma insert_desc_sorted (s : Story) (l : list Story) :
  StronglySorted newest_first l -> StronglySorted newest_first (insert_desc s l).
Proof.
  induction l as [|x l IH]; intros Hl; cbn [insert_desc].
  - repeat constructor.
  - apply StronglySorted_inv in Hl as [Hl Hx].
    destruct (Z.ltb_spec (created_at x) (created_at s)) as [Hlt|Hge].
    + constructor; [constructor; assumption|].
      constructor; [unfold newest_first; lia|].
      rewrite Forall_forall in *. intros y Hy. specialize (Hx y Hy).
      unfold newest_first in *. lia.
    + constructor; [apply IH, Hl|].
      rewrite Forall_forall in *. intros y Hy.
      apply Permutation_in with (l' := s :: l) in Hy; [|apply insert_desc_perm].
      destruct Hy as [<-|Hy]; [exact Hge|apply Hx, Hy].
Qed.

Lemma order_by_sorted (l : list Story) :
  StronglySorted newest_first (order_by_created_at_desc l).
Proof.
  induction l as [|x l IH]; cbn [order_by_created_at_desc fold_right];
    [constructor|].
  apply insert_desc_sorted, IH.
Qed.

Lemma filter_sorted (f : Story -> bool) (l : list Story) :
  StronglySorted newest_first l -> StronglySorted newest_first (filter f l).
Proof.
  induction l as [|x l IH]; intros Hl; cbn [filter]; [constructor|].
  apply StronglySorted_inv in Hl as [Hl Hx].
  destruct (f x); [|apply IH, Hl].
  constructor; [apply IH, Hl|].
  rewrite Forall_forall in *. intros y Hy. apply filter_In in Hy as [Hy _]. auto.
Qed.

Lemma filter_perm (f : Story -> bool) (l l' : list Story) :
  Permutation l l' -> Permutation (filter f l) (filter f l').
Proof.
  induction 1 as [|x l l' _ IH|x y l|l l' l'' _ IH1 _ IH2]; cbn [filter].
  - reflexivity.
  - destruct (f x); [now constructor|exact IH].
  - destruct (f x), (f y); try reflexivity. apply perm_swap.
  - now transitivity (filter f l').
Qed.

Lemma filter_twice (f g : Story -> bool) (l : list Story) :
  filter g (filter f l) = filter (fun s => f s && g s) l.
Proof.
  induction l as [|x l IH]; [reflexivity|]. cbn [filter].
  destruct (f x); cbn [filter andb]; [destruct (g x)|]; now rewrite IH.
Qed.

(** X1. [get_public_stories] answers 400 exactly for a non-empty category
    outside the allowed list (an empty one is no filter); otherwise it
    returns the approved stories, of that category when one is given, each
    once and newest first.  It leaves the table as it is. *)
Theorem public_list_exact (c : option str) (db : Db) :
  snd (get_public_stories c db) = db
  /\ (fst (get_public_stories c db) = HTTPException 400 INVALID_CATEGORY
      <-> exists cat, c = Some cat /\ cat <> []
                      /\ str_in cat ALLOWED_CATEGORIES = false)
  /\ ((forall cat, c = Some cat -> cat = []
                                   \/ str_in cat ALLOWED_CATEGORIES = true)
      <-> exists rows,
            fst (get_public_stories c db) = Return (map to_response rows)
            /\ Permutation rows (filter (selected c) db)
            /\ StronglySorted newest_first rows).
Proof.
  assert (Hall : Permutation (order_by_created_at_desc (filter approved db))
                             (filter (selected None) db)).
  { assert (E : filter (selected None) db = filter approved db)
      by (apply filter_ext; intros s; unfold selected; apply andb_true_r).
    rewrite E. apply order_by_perm. }
  unfold get_public_stories, bind, query, ret, raise.
  destruct c as [[|c0 cs]|]; cbn [fst snd].
  - split; [reflexivity|]. split.
    + split; [discriminate|]. intros (cat & H & Hne & _).
      injection H as <-. now elim Hne.
    + split.
      * intros _. eexists. split; [reflexivity|].
        split; [exact Hall|apply order_by_sorted].
      * intros _ cat H. injection H as <-. now left.
  - destruct (str_in (c0 :: cs) ALLOWED_CATEGORIES) eqn:Hc; cbn [negb fst snd].
    + split; [reflexivity|]. split.
      * split; [discriminate|]. intros (cat & H & _ & Hf).
        injection H as <-. congruence.
      * split.
        -- intros _. eexists. split; [reflexivity|]. split.
           ++ unfold selected. rewrite <- filter_twice.
              apply filter_perm, order_by_perm.
           ++ apply filter_sorted, order_by_sorted.
        -- intros _ cat H. injection H as <-. now right.
    + split; [reflexivity|]. split.
      * split; [|reflexivity]. intros _. exists (c0 :: cs).
        repeat split; [discriminate|exact Hc].
      * split.
        -- intros H. destruct (H _ eq_refl) as [H0|H0]; congruence.
        -- intros (rows & H & _). discriminate H.
  - split; [reflexivity|]. split.
    + split; [discriminate|]. intros (cat & H & _). discriminate H.
    + split.
      * intros _. eexists. split; [reflexivity|].
        split; [exact Hall|apply order_by_sorted].
      * intros _ cat H. discriminate H.
Qed.

(** X2. [get_pending_stories] returns every stored story, approved or not,
    each once and newest first, and leaves the table as it is. *)
Theorem pending_list_exact (db : Db) :
  snd (get_pending_stories db) = db
  /\ exists rows,
       fst (get_pending_stories db) = Return rows
       /\ Permutation rows db
       /\ StronglySorted newest_first rows.
Proof.
  unfold get_pending_stories, bind, query, ret. cbn [fst snd].
  split; [reflexivity|]. eexists. split; [reflexivity|].
  split; [apply order_by_perm|apply order_by_sorted].
Qed.

(** X3. For an identifier the storage can hold, [get_story] answers 404
    exactly when no approved row has the identifier; otherwise it returns
    an approved stored story of that identifier.  It leaves the table as
    it is. *)
Theorem get_story_exact (story_id : Z) (db : Db) :
  storable story_id ->
  snd (get_story story_id db) = db
  /\ (fst (get_story story_id db) = HTTPException 404 NOT_FOUND
      <-> unapproved story_id db)
  /\ (fst (get_story story_id db) = HTTPException 404 NOT_FOUND
      \/ exists s, In s db /\ id s = story_id /\ approved s = true
                   /\ fst (get_story story_id db) = Return (to_response s)).
Proof.
  intros _.
  unfold get_story, bind, query, ret, raise, unapproved.
  destruct (find (fun s => (id s =? story_id) && approved s) db) as [found|] eqn:Hf;
    cbn [fst snd].
  - apply find_some in Hf as [Hin Hc].
    apply andb_true_iff in Hc as [Hi Ha]. apply Z.eqb_eq in Hi.
    split; [reflexivity|]. split.
    + split; [discriminate|]. intros H. rewrite (H found Hin Hi) in Ha.
      discriminate.
    + right. exists found. auto.
  - split; [reflexivity|]. split; [|now left].
    split; [|reflexivity]. intros _ s Hs Hi.
    pose proof (find_none _ _ Hf s Hs) as Hn. cbn in Hn.
    apply Z.eqb_eq in Hi. rewrite Hi in Hn. exact Hn.
Qed.

(** X4. [get_random_story] answers 404 exactly when no story is approved,
    whatever the draw; otherwise every draw returns an approved stored
    story.  It leaves the table as it is. *)
Theorem random_story_exact (rnd : nat) (db : Db) :
  snd (get_random_story rnd db) = db
  /\ (fst (get_random_story rnd db) = HTTPException 404 NONE_APPROVED
      <-> forall s, In s db -> approved s = false)
  /\ (fst (get_random_story rnd db) = HTTPException 404 NONE_APPROVED
      \/ exists s, In s db /\ approved s = true
                   /\ fst (get_random_story rnd db) = Return (to_response s)).
Proof.
  unfold get_random_story, bind, query, ret, raise.
  destruct (filter approved db) as [|first rest] eqn:Hf; cbn [fst snd].
  - split; [reflexivity|]. split; [|now left].
    split; [|reflexivity]. intros _ s Hs.
    destruct (approved s) eqn:Ha; [|reflexivity].
    assert (H : In s (filter approved db)) by (apply filter_In; auto).
    rewrite Hf in H. destruct H.
  - split; [reflexivity|].
    assert (Hfirst : In first db /\ approved first = true)
      by (apply filter_In; rewrite Hf; now left).
    split.
    + split; [discriminate|]. intros H.
      destruct Hfirst as [Hin Ha]. rewrite (H first Hin) in Ha. discriminate.
    + right.
      remember (nth (rnd mod List.length (first :: rest)) (first :: rest) first)
        as x eqn:Hx.
      assert (Hin : In x (filter approved db)).
      { rewrite Hf, Hx. apply nth_In. apply Nat.mod_upper_bound. discriminate. }
      apply filter_In in Hin as [Hin Ha]. exists x.
      split; [exact Hin|]. split; [exact Ha|]. subst x. reflexivity.
Qed.

End ReadEndpoints.

(* ================================================================== *)
(** ** Submitting, approving, deleting *)

Section Moderation.

Variable uni_isalnum : char -> bool.
Variable uni_lower : char -> str.
Variable contains_profanity : str -> bool.

Local Abbreviation is_legitimate_story := (is_legitimate_story uni_isalnum uni_lower).
Local Abbreviation evaluate := (evaluate uni_isalnum uni_lower contains_profanity).
Local Abbreviation moderate := (moderate uni_isalnum uni_lower contains_profanity).
Local Abbreviation create_story := (create_story uni_isalnum uni_lower contains_profanity).
Local Abbreviation serve := (serve uni_isalnum uni_lower contains_profanity).
Local Abbreviation run := (run uni_isalnum uni_lower contains_profanity).

Lemma find_id_none (story_id : Z) (db : Db) :
  find (fun s => id s =? story_id) db = None <-> ~ In story_id (map id db).
Proof.
  split.
  - intros Hf Hin. apply in_map_iff in Hin as (s & Hi & Hs).
    pose proof (find_none _ _ Hf s Hs) as Hn. cbn in Hn.
    apply Z.eqb_neq in Hn. contradiction.
  - intros Hn. destruct (find _ db) as [s|] eqn:Hf; [|reflexivity].
    apply find_some in Hf as [Hs Hi]. apply Z.eqb_eq in Hi.
    exfalso. apply Hn. rewrite <- Hi. now apply in_map.
Qed.

Lemma find_id_some (story_id : Z) (db : Db) (target : Story) :
  In target db -> id target = story_id ->
  exists found, find (fun s => id s =? story_id) db = Some found.
Proof.
  intros Hin Hid. destruct (find _ db) as [s|] eqn:Hf; [now exists s|].
  apply find_id_none in Hf. exfalso. apply Hf. rewrite <- Hid. now apply in_map.
Qed.

Lemma find_app_skip {A} (f : A -> bool) (l l' : list A) :
  (forall x, In x l -> f x = false) -> find f (l ++ l') = find f l'.
Proof.
  induction l as [|x l IH]; intros H; [reflexivity|].
  cbn [app find]. rewrite (H x (or_introl eq_refl)).
  apply IH. intros y Hy. apply H. now right.
Qed.

Lemma approve_story_session (story_id now : Z) (db : Db) :
  snd (approve_story story_id now db)
  = match find (fun s => id s =? story_id) db with
    | Some _ => map (fun s => if id s =? story_id then approve_row now s else s) db
    | None => db
    end.
Proof.
  unfold approve_story, bind, query, commit, ret, raise.
  destruct (find _ db); reflexivity.
Qed.

Lemma reject_story_session (story_id : Z) (db : Db) :
  snd (reject_story story_id db) = filter (fun s => negb (id s =? story_id)) db.
Proof.
  unfold reject_story, bind, query, commit, ret, raise.
  destruct (find _ db) eqn:Hf; [reflexivity|]. cbn [snd].
  symmetry. apply forallb_filter_id. apply forallb_forall. intros s Hs.
  now rewrite (find_none _ _ Hf s Hs).
Qed.

Lemma approved_ids (story_id now : Z) (db : Db) :
  map id (map (fun s => if id s =? story_id then approve_row now s else s) db)
  = map id db.
Proof.
  rewrite map_map. apply map_ext. intros s.
  destruct (id s =? story_id); reflexivity.
Qed.

(** X5. Approving or deleting an identifier that the storage can hold
    and no stored story has answers 404 and changes nothing. *)
Theorem unknown_id_not_found (story_id now : Z) (db : Db) :
  storable story_id ->
  ~ In story_id (map id db) ->
  approve_story story_id now db = (HTTPException 404 NOT_FOUND, db)
  /\ reject_story story_id db = (HTTPException 404 NOT_FOUND, db).
Proof.
  intros _ Hn. apply find_id_none in Hn.
  unfold approve_story, reject_story, bind, query, commit, ret, raise.
  now rewrite Hn.
Qed.

(** X6. Deleting an existing story answers that it is deleted and removes
    the rows of that identifier and no other: afterwards the identifier is
    unknown to [get_story], [approve_story] and [reject_story], and every
    story of another identifier is stored as before. *)
Theorem delete_removes_only_target (story_id now : Z) (db : Db) (target : Story) :
  In target db ->
  id target = story_id ->
  fst (reject_story story_id db) = Return DELETED
  /\ ~ In story_id (map id (snd (reject_story story_id db)))
  /\ (forall s, id s <> story_id ->
        (In s (snd (reject_story story_id db)) <-> In s db))
  /\ fst (get_story story_id (snd (reject_story story_id db)))
     = HTTPException 404 NOT_FOUND
  /\ fst (approve_story story_id now (snd (reject_story story_id db)))
     = HTTPException 404 NOT_FOUND
  /\ fst (reject_story story_id (snd (reject_story story_id db)))
     = HTTPException 404 NOT_FOUND.
Proof.
  intros Hin Hid.
  assert (Hgone : ~ In story_id (map id (snd (reject_story story_id db)))).
  { rewrite reject_story_session. intros H.
    apply in_map_iff in H as (s & Hi & Hs). apply filter_In in Hs as [_ Hs].
    apply negb_true_iff, Z.eqb_neq in Hs. contradiction. }
  split; [|split; [exact Hgone|split; [|split; [|split]]]].
  - destruct (find_id_some story_id db target Hin Hid) as [found Hf].
    unfold reject_story, bind, query, commit, ret, raise. now rewrite Hf.
  - intros s Hs. rewrite reject_story_session, filter_In.
    apply Z.eqb_neq in Hs. rewrite Hs. cbn [negb].
    split; [intros [H _]; exact H|intros H; split; [exact H|reflexivity]].
  - unfold get_story, bind, query, ret, raise.
    destruct (find _ _) as [s|] eqn:Hf; [|reflexivity].
    apply find_some in Hf as [Hs Hc]. apply andb_true_iff in Hc as [Hi _].
    apply Z.eqb_eq in Hi. exfalso. apply Hgone, in_map_iff. exists s. auto.
  - apply find_id_none in Hgone.
    unfold approve_story, bind, query, commit, ret, raise. now rewrite Hgone.
  - apply find_id_none in Hgone.
    unfold reject_story at 1, bind, query, commit, ret, raise. now rewrite Hgone.
Qed.

(** X7. Approving a story twice is approving it once at the later time:
    the second approval finds the same rows and only moves [updated_at]. *)
Theorem approve_twice (story_id t1 t2 : Z) (db : Db) :
  fst (approve_story story_id t2 (snd (approve_story story_id t1 db)))
  = fst (approve_story story_id t1 db)
  /\ snd (approve_story story_id t2 (snd (approve_story story_id t1 db)))
     = snd (approve_story story_id t2 db).
Proof.
  destruct (find (fun s => id s =? story_id) db) as [found|] eqn:Hf.
  - apply find_some in Hf as [Hin Hi]. apply Z.eqb_eq in Hi.
    assert (Hin' : In (approve_row t1 found)
                      (snd (approve_story story_id t1 db))).
    { rewrite approve_story_session.
      destruct (find_id_some story_id db found Hin Hi) as [x ->].
      apply in_map_iff. exists found. apply Z.eqb_eq in Hi. now rewrite Hi. }
    destruct (find_id_some story_id db found Hin Hi) as [x Hx].
    destruct (find_id_some story_id _ (approve_row t1 found) Hin' Hi) as [y Hy].
    split.
    + unfold approve_story at 1 3, bind, query, commit, ret, raise.
      now rewrite Hx, Hy.
    + rewrite (approve_story_session story_id t2 (snd _)), Hy.
      rewrite !approve_story_session, Hx, map_map. apply map_ext. intros s.
      destruct (id s =? story_id) eqn:E; cbn [id approve_row]; rewrite E;
        reflexivity.
  - assert (E : approve_story story_id t1 db = (HTTPException 404 NOT_FOUND, db))
      by (unfold approve_story, bind, query, commit, ret, raise; now rewrite Hf).
    rewrite E. cbn [fst snd].
    unfold approve_story, bind, query, commit, ret, raise. now rewrite Hf.
Qed.

Lemma filter_ids_nodup (f : Story -> bool) (db : Db) :
  NoDup (map id db) -> NoDup (map id (filter f db)).
Proof.
  induction db as [|s db IH]; cbn [map filter]; intros H; [constructor|].
  apply NoDup_cons_iff in H as [Hs H].
  destruct (f s); [|apply IH, H].
  cbn [map]. constructor; [|apply IH, H].
  intros Hin. apply Hs. apply in_map_iff in Hin as (x & Hx & Hin).
  apply filter_In in Hin as [Hin _]. rewrite <- Hx. now apply in_map.
Qed.

(** X8. The identifiers stay a primary key: if no two stored stories share
    an identifier and a submission gets a fresh one, then after any request
    no two stored stories share an identifier. *)
Theorem identifiers_stay_unique (req : Request) (db : Db) :
  NoDup (map id db) ->
  assigns_fresh req db ->
  NoDup (map id (serve req db)).
Proof.
  intros Hdb Hfresh.
  destruct req as [story new_id t1 t2|i now|i|c|i|rnd|];
    cbn [main.serve assigns_fresh] in *.
  - pose proof (create_story_session uni_isalnum uni_lower contains_profanity
                  story new_id t1 t2 db) as Hc.
    destruct (fst (create_story story new_id t1 t2 db)) as [body|code detail].
    + destruct Hc as [_ ->]. rewrite map_app. cbn [map new_story id].
      apply NoDup_app; [exact Hdb|repeat constructor; intros []|].
      intros x Hx [<-|[]]. contradiction.
    + now rewrite Hc.
  - rewrite approve_story_session. destruct (find _ db); [|exact Hdb].
    now rewrite approved_ids.
  - rewrite reject_story_session. now apply filter_ids_nodup.
  - unfold get_public_stories, bind, query, ret, raise.
    destruct c as [[|c0 cs]|]; try exact Hdb.
    destruct (negb _); exact Hdb.
  - unfold get_story, bind, query, ret, raise.
    destruct (find _ db); exact Hdb.
  - unfold get_random_story, bind, query, ret, raise.
    destruct (filter approved db); exact Hdb.
  - exact Hdb.
Qed.

(** X9. Submit, approve, read: a stored submission is not found by
    [get_story] before its approval; approving its identifier succeeds,
    and then [get_story] returns it, approved, with the fields submitted. *)
Theorem submit_approve_read (story : models.StoryCreate)
    (new_id t1 t2 now : Z) (db : Db) :
  ~ In new_id (map id db) ->
  fst (create_story story new_id t1 t2 db) = Return (new_id, SUBMITTED) ->
  fst (get_story new_id (snd (create_story story new_id t1 t2 db)))
  = HTTPException 404 NOT_FOUND
  /\ fst (approve_story new_id now (snd (create_story story new_id t1 t2 db)))
     = Return APPROVED
  /\ fst (get_story new_id
            (snd (approve_story new_id now
                    (snd (create_story story new_id t1 t2 db)))))
     = Return {| models.r_id := new_id;
                 models.r_title := models.title story;
                 models.r_author_name := models.author_name story;
                 models.r_story_text := models.story_text story;
                 models.r_category := models.category story;
                 models.r_created_at := t1;
                 models.r_approved := true |}.
Proof.
  intros Hfresh Hok.
  pose proof (create_story_session uni_isalnum uni_lower contains_profanity
                story new_id t1 t2 db) as Hc.
  rewrite Hok in Hc. destruct Hc as [_ Hdb]. rewrite Hdb.
  assert (Hother : forall s, In s db -> (id s =? new_id) = false).
  { intros s Hs. apply Z.eqb_neq. intros Hi. apply Hfresh.
    rewrite <- Hi. now apply in_map. }
  assert (Hfind : find (fun s => id s =? new_id)
                       (db ++ [new_story story false new_id t1 t2])
                  = Some (new_story story false new_id t1 t2)).
  { rewrite find_app_skip by exact Hother. cbn [find new_story id].
    now rewrite Z.eqb_refl. }
  split; [|split].
  - unfold get_story, bind, query, ret, raise.
    rewrite find_app_skip by (intros s Hs; now rewrite (Hother s Hs)).
    cbn [find new_story id approved]. now rewrite andb_false_r.
  - unfold approve_story, bind, query, commit, ret, raise. now rewrite Hfind.
  - rewrite approve_story_session, Hfind, map_app.
    unfold get_story, bind, query, ret, raise.
    rewrite find_app_skip.
    + cbn [map find new_story id approve_row approved].
      rewrite !Z.eqb_refl. reflexivity.
    + intros s Hs. apply in_map_iff in Hs as (s0 & <- & Hs0).
      now rewrite (Hother s0 Hs0), (Hother s0 Hs0).
Qed.

Lemma get_story_found (story_id : Z) (db : Db) :
  (exists resp, fst (get_story story_id db) = Return resp)
  <-> exists s, In s db /\ id s = story_id /\ approved s = true.
Proof.
  unfold get_story, bind, query, ret, raise.
  destruct (find (fun s => (id s =? story_id) && approved s) db) as [found|] eqn:Hf;
    cbn [fst].
  - apply find_some in Hf as [Hin Hc].
    apply andb_true_iff in Hc as [Hi Ha]. apply Z.eqb_eq in Hi.
    split; [intros _; now exists found|intros _; eexists; reflexivity].
  - split; [intros [resp H]; discriminate H|].
    intros (s & Hs & Hi & Ha). pose proof (find_none _ _ Hf s Hs) as Hn.
    cbn in Hn. apply Z.eqb_eq in Hi. rewrite Hi, Ha in Hn. discriminate.
Qed.

(** X10. Once [get_story] returns a story for an identifier, it keeps
    returning one after any request that does not delete that identifier:
    nothing but deletion takes a story out of public view. *)
Theorem public_until_deleted (story_id : Z) (req : Request) (db : Db)
    (resp : models.StoryResponse) :
  deletes story_id req = false ->
  fst (get_story story_id db) = Return resp ->
  exists resp', fst (get_story story_id (serve req db)) = Return resp'.
Proof.
  intros Hreq Hget. apply get_story_found.
  assert (Hdb : exists s, In s db /\ id s = story_id /\ approved s = true)
    by (apply get_story_found; now exists resp).
  destruct Hdb as (s & Hs & Hi & Ha).
  destruct req as [story new_id t1 t2|i now|i|c|i|rnd|];
    cbn [main.serve deletes] in *.
  - pose proof (create_story_session uni_isalnum uni_lower contains_profanity
                  story new_id t1 t2 db) as Hc.
    destruct (fst (create_story story new_id t1 t2 db)) as [body|code detail].
    + destruct Hc as [_ ->]. exists s. split; [apply in_or_app; now left|auto].
    + rewrite Hc. now exists s.
  - rewrite approve_story_session. destruct (find _ db); [|now exists s].
    exists (if id s =? i then approve_row now s else s). split.
    + apply in_map_iff. now exists s.
    + destruct (id s =? i); cbn [id approved approve_row]; auto.
  - rewrite reject_story_session. exists s. split; [|auto].
    apply filter_In. split; [exact Hs|].
    apply negb_true_iff, Z.eqb_neq. apply Z.eqb_neq in Hreq. congruence.
  - exists s. split; [|auto].
    unfold get_public_stories, bind, query, ret, raise.
    destruct c as [[|c0 cs]|]; try exact Hs. destruct (negb _); exact Hs.
  - exists s. split; [|auto].
    unfold get_story, bind, query, ret, raise. destruct (find _ db); exact Hs.
  - exists s. split; [|auto].
    unfold get_random_story, bind, query, ret, raise.
    destruct (filter approved db); exact Hs.
  - now exists s.
Qed.

(** X11. Which answer a submission gets: it is stored exactly when its
    category is allowed and the pipeline accepts its text; a category
    outside the list is reported first, whatever the text; then profanity;
    then the generic rejection of [is_legitimate_story]. *)
Theorem submission_outcome (story : models.StoryCreate)
    (new_id t1 t2 : Z) (db : Db) :
  (fst (create_story story new_id t1 t2 db) = Return (new_id, SUBMITTED)
   <-> str_in (models.category story) ALLOWED_CATEGORIES = true
       /\ evaluate (models.story_text story) = Accepted)
  /\ (fst (create_story story new_id t1 t2 db)
      = HTTPException 400 INVALID_CATEGORY
      <-> str_in (models.category story) ALLOWED_CATEGORIES = false)
  /\ (fst (create_story story new_id t1 t2 db)
      = HTTPException 400 INAPPROPRIATE
      <-> str_in (models.category story) ALLOWED_CATEGORIES = true
          /\ contains_profanity (models.story_text story) = true)
  /\ (fst (create_story story new_id t1 t2 db)
      = HTTPException 400 NOT_A_STORY
      <-> str_in (models.category story) ALLOWED_CATEGORIES = true
          /\ contains_profanity (models.story_text story) = false
          /\ is_legitimate_story (models.story_text story) = false).
Proof.
  rewrite create_story_unfold.
  unfold main.moderate, main.evaluate.
  destruct (str_in _ ALLOWED_CATEGORIES); cbn [negb fst].
  - destruct (contains_profanity _); cbn [fst].
    + repeat split; try discriminate; try (intros [_ H]; discriminate H);
        try (intros (_ & H & _); discriminate H); auto.
    + destruct (is_legitimate_story _); cbn [negb fst];
        repeat split; try discriminate; try (intros [_ H]; discriminate H);
        try (intros (_ & _ & H); discriminate H); auto.
  - repeat split; try discriminate; try (intros [H _]; discriminate H);
      try (intros (H & _); discriminate H); auto.
Qed.

(** X12. A stored submission is in the admin list at once, with the fields
    submitted, unapproved and dated by the clock, next to every story that
    was stored before. *)
Theorem submission_reaches_admin (story : models.StoryCreate)
    (new_id t1 t2 : Z) (db : Db) :
  fst (create_story story new_id t1 t2 db) = Return (new_id, SUBMITTED) ->
  exists rows,
    fst (get_pending_stories (snd (create_story story new_id t1 t2 db)))
    = Return rows
    /\ List.length rows = S (List.length db)
    /\ (forall s, In s db -> In s rows)
    /\ exists s,
         In s rows
         /\ id s = new_id
         /\ title s = models.title story
         /\ author_name s = models.author_name story
         /\ author_email s = models.author_email story
         /\ story_text s = models.story_text story
         /\ category s = models.category story
         /\ approved s = false
         /\ created_at s = t1
         /\ updated_at s = t2.
Proof.
  intros Hok.
  pose proof (create_story_session uni_isalnum uni_lower contains_profanity
                story new_id t1 t2 db) as Hc.
  rewrite Hok in Hc. destruct Hc as [_ Hdb]. rewrite Hdb.
  unfold get_pending_stories, bind, query, ret. cbn [fst].
  eexists. split; [reflexivity|].
  assert (Hp : Permutation
                 (order_by_created_at_desc (db ++ [new_story story false new_id t1 t2]))
                 (db ++ [new_story story false new_id t1 t2]))
    by apply order_by_perm.
  split; [|split].
  - rewrite (Permutation_length Hp), length_app. cbn. lia.
  - intros s Hs. apply (Permutation_in _ (Permutation_sym Hp)).
    apply in_or_app. now left.
  - exists (new_story story false new_id t1 t2). split.
    + apply (Permutation_in _ (Permutation_sym Hp)).
      apply in_or_app. right. now left.
    + repeat split.
Qed.

Lemma none_approves (story_id : Z) (reqs : list Request) :
  existsb (approves story_id) reqs = false ->
  forallb (fun req => negb (approves story_id req)) reqs = true.
Proof.
  induction reqs as [|req reqs IH]; [reflexivity|].
  cbn [existsb forallb]. intros H. apply orb_false_iff in H as [H1 H2].
  now rewrite H1, IH.
Qed.

(** X13. Starting from a table with no approved story, whatever requests
    are served, every story that is approved has had its identifier
    approved by a request to the approve endpoint. *)
Theorem approved_only_by_admin (reqs : list Request) (db : Db) (s : Story) :
  (forall s0, In s0 db -> approved s0 = false) ->
  In s (run reqs db) ->
  approved s = true ->
  existsb (approves (id s)) reqs = true.
Proof.
  intros Hdb Hs Ha.
  destruct (existsb (approves (id s)) reqs) eqn:E; [reflexivity|].
  exfalso.
  assert (Hun : unapproved (id s) (run reqs db)).
  { apply run_unapproved; [apply none_approves, E|].
    intros s0 Hs0 _. now apply Hdb. }
  rewrite (Hun s Hs eq_refl) in Ha. discriminate.
Qed.

End Moderation.

(* ================================================================== *)
(** ** What the legitimacy check implies *)

Section Legitimacy.

Variable uni_isalnum : char -> bool.
Variable uni_lower : char -> str.

Import PyStrFacts PyFloatFacts.

Local Abbreviation non_standard := (non_standard uni_isalnum).
Local Abbreviation non_alpha := (non_alpha uni_isalnum).
Local Abbreviation is_legitimate_story := (is_legitimate_story uni_isalnum uni_lower).
Local Abbreviation spec_vowel := (spec_vowel uni_lower).

Lemma dropwhile_length (p : char -> bool) (s : str) :
  (List.length (dropwhile p s) <= List.length s)%nat.
Proof.
  induction s as [|c s IH]; [reflexivity|].
  cbn [dropwhile]. destruct (p c); cbn [List.length]; lia.
Qed.

Lemma len_strip (s : str) : len (strip s) <= len s.
Proof.
  unfold len, strip, rstrip, lstrip. rewrite length_rev.
  pose proof (dropwhile_length isspace (rev (dropwhile isspace s))) as H1.
  rewrite length_rev in H1.
  pose proof (dropwhile_length isspace s). lia.
Qed.

Lemma legitimate_checks (text : str) :
  is_legitimate_story text = true ->
  10 <= len (strip text)
  /\ existsb (repeated text) text = false
  /\ int_gt (non_alpha text) (int_mul (len text) lit_0_2) = false
  /\ mostly_gibberish uni_lower (split text) = false.
Proof.
  unfold main.is_legitimate_story.
  destruct (Z.ltb_spec (len (strip text)) 10); [discriminate|].
  destruct (existsb (repeated text) text); [discriminate|].
  destruct (int_gt _ _); [discriminate|].
  destruct (mostly_gibberish _ _); [discriminate|]. auto.
Qed.

(** X14. A text that [is_legitimate_story] accepts has at least 10
    characters, so it also meets the minimum of the schema, and at least
    one word. *)
Theorem legitimate_is_long_enough (text : str) :
  is_legitimate_story text = true ->
  10 <= len (strip text) <= len text
  /\ models.MIN_LENGTH <= len text
  /\ split text <> [].
Proof.
  intros H. apply legitimate_checks in H as (Hl & _).
  pose proof (len_strip text). unfold models.MIN_LENGTH.
  repeat split; try lia.
  intros Hs. apply split_nil, strip_blank in Hs. rewrite Hs in Hl.
  unfold len in Hl. cbn in Hl. lia.
Qed.

Lemma total_cons (f : char -> Z) (c : char) (l : list char) :
  total f (c :: l) = f c + total f l.
Proof. reflexivity. Qed.

Lemma total_add (f g : char -> Z) (l : list char) :
  total (fun c => f c + g c) l = total f l + total g l.
Proof.
  induction l as [|c l IH]; [reflexivity|].
  rewrite !total_cons, IH. lia.
Qed.

Lemma total_ext (f g : char -> Z) (l : list char) :
  (forall c, f c = g c) -> total f l = total g l.
Proof.
  intros H. induction l as [|c l IH]; [reflexivity|].
  now rewrite !total_cons, IH, H.
Qed.

Lemma total_indicator (d : char) (l : list char) :
  NoDup l ->
  total (fun c => if d =? c then 1 else 0) l = if in_dec Z.eq_dec d l then 1 else 0.
Proof.
  induction 1 as [|c l Hc Hl IH]; [reflexivity|].
  rewrite total_cons, IH.
  destruct (Z.eqb_spec d c) as [->|Hne].
  - destruct (in_dec Z.eq_dec c l) as [Hin|_]; [contradiction|].
    destruct (in_dec Z.eq_dec c (c :: l)) as [_|Hn]; [reflexivity|].
    exfalso. apply Hn. now left.
  - destruct (in_dec Z.eq_dec d l) as [Hin|Hout];
      destruct (in_dec Z.eq_dec d (c :: l)) as [Hin'|Hout']; try reflexivity.
    + exfalso. apply Hout'. now right.
    + exfalso. destruct Hin' as [E|Hin']; [congruence|contradiction].
Qed.

Lemma total_zero (l : list char) : total (fun _ => 0) l = 0.
Proof. induction l as [|c l IH]; [reflexivity|]. now rewrite total_cons, IH. Qed.

(** The occurrences of the distinct characters add up to the length. *)
Lemma total_count (l : list char) (text : str) :
  NoDup l -> (forall c, In c text -> In c l) ->
  total (fun c => count c text) l = len text.
Proof.
  intros Hl. induction text as [|d text IH]; intros Hcov.
  - rewrite (total_ext _ (fun _ => 0)) by reflexivity. apply total_zero.
  - rewrite len_cons.
    rewrite (total_ext _ (fun c => (if d =? c then 1 else 0) + count c text))
      by reflexivity.
    rewrite total_add, (total_indicator d l Hl), IH.
    + destruct (in_dec Z.eq_dec d l) as [_|Hout]; [reflexivity|].
      exfalso. apply Hout, Hcov. now left.
    + intros c Hc. apply Hcov. now right.
Qed.

Lemma total_bound (f : char -> Z) (k : Z) (l : list char) :
  (forall c, In c l -> 10 * f c <= k) -> 10 * total f l <= k * len l.
Proof.
  induction l as [|c l IH]; intros H.
  - unfold len. cbn. lia.
  - rewrite len_cons, total_cons.
    assert (10 * f c <= k) by (apply H; now left).
    assert (10 * total f l <= k * len l)
      by (apply IH; intros x Hx; apply H; now right).
    lia.
Qed.

(** X15. A text that [is_legitimate_story] accepts uses at least four
    different characters: with three or fewer, one of them would make up
    more than 30 % of the text. *)
Theorem legitimate_has_four_characters (text : str) :
  len text <= models.MAX_LENGTH ->
  is_legitimate_story text = true ->
  4 <= len (distinct text).
Proof.
  intros Hmax H. apply legitimate_checks in H as (Hl & Hr & _).
  pose proof (len_strip text) as Hs.
  rewrite (repetition_exact text Hmax) in Hr.
  apply negb_false_iff in Hr.
  pose proof (proj1 (repetition_prop text) Hr) as Hall.
  assert (Hsum : total (fun c => count c text) (distinct text) = len text).
  { apply total_count; [apply NoDup_nodup|].
    intros c Hc. now apply nodup_In. }
  pose proof (total_bound (fun c => count c text) (3 * len text) (distinct text)
                (fun c _ => Hall c)) as Hb.
  rewrite Hsum in Hb. nia.
Qed.

Lemma count_le_count_if (p : char -> bool) (c : char) (s : str) :
  p c = true -> count c s <= count_if p s.
Proof.
  intros Hp. induction s as [|d s IH]; [reflexivity|].
  cbn [count count_if]. destruct (Z.eqb_spec d c) as [->|_].
  - rewrite Hp. lia.
  - destruct (p d); lia.
Qed.

(** X16. A single character that is neither alphanumeric nor standard
    punctuation, such as a line break or a tab, making up more than 20 %
    of a text gets the text rejected. *)
Theorem symbol_flood_rejected (text : str) (c : char) :
  len text <= models.MAX_LENGTH ->
  non_standard c = true ->
  len text < 5 * count c text ->
  is_legitimate_story text = false.
Proof.
  intros Hmax Hc Hn.
  pose proof (count_le_count_if non_standard c text Hc) as Hle.
  fold (non_alpha text) in Hle.
  unfold main.is_legitimate_story.
  destruct (len (strip text) <? 10); [reflexivity|].
  destruct (existsb (repeated text) text); [reflexivity|].
  rewrite (symbols_exact uni_isalnum text Hmax).
  assert (E : (5 * non_alpha text <=? len text) = false)
    by (apply Z.leb_gt; lia).
  now rewrite E.
Qed.

(** X17. Among the ASCII characters the vowels of the gibberish check are
    the ten letters [aeiouAEIOU] and no other: not [y], not a digit. *)
Theorem ascii_vowels (c : char) :
  is_ascii c = true ->
  (spec_vowel c = true <-> In c ASCII_VOWELS).
Proof.
  intros Hc. rewrite <- mem_In.
  assert (Hall : check_from
            (fun c => Bool.eqb (spec_vowel c) (mem c ASCII_VOWELS))
            (Z.to_nat 128) 0 = true) by (vm_compute; reflexivity).
  unfold is_ascii in Hc. apply andb_true_iff in Hc as [H0 H1].
  apply Z.leb_le in H0. apply Z.ltb_lt in H1.
  pose proof (check_from_spec _ _ 0 c Hall) as H.
  cbv beta in H. rewrite Z2Nat.id in H by lia.
  specialize (H (conj H0 H1)). apply eqb_prop in H. now rewrite H.
Qed.

End Legitimacy.

(* ================================================================== *)
(** ** What [split] and [strip] do to a text *)

Section StringOperations.

Lemma concat_flush (cur : str) (rest : list str) :
  List.concat (flush cur rest) = rev cur ++ List.concat rest.
Proof. destruct cur; reflexivity. Qed.

Lemma split_from_concat (cur s : str) :
  List.concat (split_from cur s)
  = rev cur ++ filter (fun c => negb (isspace c)) s.
Proof.
  revert cur. induction s as [|c s IH]; intros cur; cbn [split_from filter].
  - rewrite concat_flush. reflexivity.
  - destruct (isspace c); cbn [negb].
    + rewrite concat_flush, IH. reflexivity.
    + rewrite IH. cbn [rev]. now rewrite <- app_assoc.
Qed.

Lemma flush_words (cur : str) (rest : list str) :
  (forall c, In c cur -> isspace c = false) ->
  Forall is_word rest -> Forall is_word (flush cur rest).
Proof.
  intros Hcur Hrest. destruct cur as [|c cur]; [exact Hrest|].
  cbn [flush]. constructor; [|exact Hrest]. split.
  - intros H. apply (f_equal (@List.length _)) in H.
    rewrite length_rev in H. discriminate H.
  - intros x Hx. apply Hcur. now apply in_rev.
Qed.

Lemma split_from_words (cur s : str) :
  (forall c, In c cur -> isspace c = false) ->
  Forall is_word (split_from cur s).
Proof.
  revert cur. induction s as [|c s IH]; intros cur Hcur; cbn [split_from].
  - now apply flush_words.
  - destruct (isspace c) eqn:Hc.
    + apply flush_words; [exact Hcur|]. apply IH. intros x [].
    + apply IH. intros x [<-|Hx]; auto.
Qed.

(** X18. [split] yields words that are not empty and hold no white space,
    and the words put end to end are the text without its white space:
    nothing but white space is lost, nothing reordered. *)
Theorem split_words (s : str) :
  Forall is_word (split s)
  /\ List.concat (split s) = filter (fun c => negb (isspace c)) s.
Proof.
  split.
  - apply split_from_words. intros c [].
  - unfold split. now rewrite split_from_concat.
Qed.

Lemma split_from_word (w cur rest : str) :
  (forall c, In c w -> isspace c = false) ->
  split_from cur (w ++ rest) = split_from (rev w ++ cur) rest.
Proof.
  revert cur. induction w as [|c w IH]; intros cur Hw; [reflexivity|].
  cbn [app split_from]. rewrite (Hw c (or_introl eq_refl)).
  rewrite IH by (intros x Hx; apply Hw; now right).
  cbn [rev]. now rewrite <- app_assoc.
Qed.

Lemma flush_word (w : str) (rest : list str) :
  w <> [] -> flush (rev w) rest = w :: rest.
Proof.
  intros Hw. destruct (rev w) as [|c r] eqn:E.
  - apply (f_equal (@List.length _)) in E. rewrite length_rev in E.
    destruct w; [now elim Hw|discriminate E].
  - cbn [flush]. now rewrite <- E, rev_involutive.
Qed.

(** X19. Words joined by single spaces split into the same words. *)
Theorem split_join (words : list str) :
  Forall is_word words ->
  split (join_spaces words) = words.
Proof.
  unfold split. induction 1 as [|w words [Hne Hw] Hws IH]; [reflexivity|].
  destruct words as [|w' words].
  - cbn [join_spaces]. rewrite <- (app_nil_r w) at 1.
    rewrite (split_from_word w [] [] Hw), app_nil_r. cbn [split_from].
    now apply flush_word.
  - change (join_spaces (w :: w' :: words))
      with (w ++ 32 :: join_spaces (w' :: words)).
    rewrite (split_from_word w [] _ Hw), app_nil_r.
    cbn [split_from]. change (isspace 32) with true. cbv iota.
    rewrite IH. now apply flush_word.
Qed.

Lemma dropwhile_prefix (p : char -> bool) (s : str) :
  exists l, s = l ++ dropwhile p s
            /\ forallb p l = true
            /\ match dropwhile p s with
               | [] => True
               | c :: _ => p c = false
               end.
Proof.
  induction s as [|c s (l & Hs & Hl & Hd)].
  - exists []. repeat split.
  - cbn [dropwhile]. destruct (p c) eqn:Hc.
    + exists (c :: l). cbn [app forallb]. rewrite Hc, Hl. repeat split; auto.
      now f_equal.
    + exists []. repeat split. exact Hc.
Qed.

(** X20. [strip] removes white space from both ends and nothing else: the
    text is white space, then the stripped text, then white space, and
    the stripped text neither starts nor ends with white space. *)
Theorem strip_trims (s : str) :
  exists l r,
    s = l ++ strip s ++ r
    /\ forallb isspace l = true
    /\ forallb isspace r = true
    /\ match strip s with [] => True | c :: _ => isspace c = false end
    /\ match rev (strip s) with [] => True | c :: _ => isspace c = false end.
Proof.
  destruct (dropwhile_prefix isspace s) as (l & Hs & Hl & Hd).
  destruct (dropwhile_prefix isspace (rev (dropwhile isspace s)))
    as (r & Hr & Hrl & Hrd).
  fold (lstrip s) in *.
  assert (E : lstrip s = strip s ++ rev r).
  { unfold strip, rstrip. rewrite <- rev_app_distr, <- Hr.
    now rewrite rev_involutive. }
  exists l, (rev r). split; [|split; [|split; [|split]]].
  - now rewrite <- E.
  - exact Hl.
  - rewrite forallb_forall in *. intros c Hc. apply Hrl. now apply in_rev.
  - rewrite E in Hd. destruct (strip s); [exact I|exact Hd].
  - unfold strip, rstrip. now rewrite rev_involutive.
Qed.

End StringOperations.

(* ================================================================== *)
(** ** Texts without the five vowels *)

Section Vowelless.

Variable uni_isalnum : char -> bool.
Variable uni_lower : char -> str.

Import PyStrFacts PyFloatFacts.

Local Abbreviation is_legitimate_story := (is_legitimate_story uni_isalnum uni_lower).
Local Abbreviation spec_vowel := (spec_vowel uni_lower).
Local Abbreviation spec_gibberish_word := (spec_gibberish_word uni_lower).

Lemma word_in_text (s w : str) (c : char) :
  In w (split s) -> In c w -> In c s.
Proof.
  intros Hw Hc.
  assert (H : In c (List.concat (split s)))
    by (apply in_concat; exists w; auto).
  unfold split in H. rewrite split_from_concat in H.
  apply filter_In in H. tauto.
Qed.

Lemma filter_same {A} (f g : A -> bool) (l : list A) :
  (forall x, In x l -> f x = g x) -> filter f l = filter g l.
Proof.
  induction l as [|x l IH]; intros H; [reflexivity|].
  cbn [filter]. rewrite (H x (or_introl eq_refl)), IH; [reflexivity|].
  intros y Hy. apply H. now right.
Qed.

(** X21. In a text none of whose characters lowers to one of [aeiou], as
    in a text written in another script, every word longer than 8
    characters counts as gibberish: if more than 30 % of its words are
    that long, the text is rejected. *)
Theorem long_words_without_vowels_rejected (text : str) :
  len text <= models.MAX_LENGTH ->
  (forall c, In c text -> spec_vowel c = false) ->
  3 * len (split text) < 10 * len (filter (fun w => 8 <? len w) (split text)) ->
  is_legitimate_story text = false.
Proof.
  intros Hmax Hv Hlong.
  assert (E : filter spec_gibberish_word (split text)
              = filter (fun w => 8 <? len w) (split text)).
  { apply filter_same. intros w Hw. unfold main.spec_gibberish_word.
    assert (Hn : existsb spec_vowel w = false).
    { destruct (existsb spec_vowel w) eqn:Hex; [|reflexivity].
      apply existsb_exists in Hex as (c & Hc & Hvc).
      rewrite (Hv c (word_in_text text w c Hw Hc)) in Hvc. discriminate. }
    rewrite Hn. apply andb_true_r. }
  unfold main.is_legitimate_story.
  destruct (len (strip text) <? 10); [reflexivity|].
  destruct (existsb (repeated text) text); [reflexivity|].
  destruct (int_gt _ _); [reflexivity|].
  rewrite (gibberish_exact uni_lower text Hmax), E.
  apply Z.leb_gt in Hlong.
  match goal with
  | |- (if negb ?b then _ else _) = _ =>
      assert (Hb : b = false) by exact Hlong; now rewrite Hb
  end.
Qed.

End Vowelless.

(* ================================================================== *)
(** ** The further theorems at concrete tables and texts *)

Section MoreInstances.

Import Sample Scenarios.

Local Abbreviation create_story := (create_story isalnum_latin1 lower_latin1 contains_profanity).
Local Abbreviation serve := (serve isalnum_latin1 lower_latin1 contains_profanity).
Local Abbreviation run := (run isalnum_latin1 lower_latin1 contains_profanity).
Local Abbreviation is_legitimate_story := (is_legitimate_story isalnum_latin1 lower_latin1).

Lemma table_ids : map id table = [1; 2].
Proof. reflexivity. Qed.

Lemma storable_small (story_id : Z) : 0 <= story_id <= 1000 -> storable story_id.
Proof.
  intros H. unfold storable.
  assert (E : 2 ^ 63 = 9223372036854775808) by reflexivity.
  rewrite E. lia.
Qed.

Lemma get_story_exact_witness :
  storable 1
  /\ (fst (get_story 1 table) = HTTPException 404 NOT_FOUND
      <-> unapproved 1 table).
Proof.
  assert (H : storable 1) by (apply storable_small; lia).
  split; [exact H|]. apply (get_story_exact 1 table H).
Defined.

Lemma unknown_id_not_found_witness :
  storable 9
  /\ ~ In 9 (map id table)
  /\ approve_story 9 200 table = (HTTPException 404 NOT_FOUND, table).
Proof.
  assert (Hs : storable 9) by (apply storable_small; lia).
  assert (H : ~ In 9 (map id table))
    by (rewrite table_ids; intros [H|[H|[]]]; discriminate H).
  split; [exact Hs|]. split; [exact H|].
  apply (unknown_id_not_found 9 200 table Hs H).
Defined.

Lemma delete_removes_only_target_witness :
  In published table
  /\ id published = 2
  /\ ~ In 2 (map id (snd (reject_story 2 table))).
Proof.
  split; [right; left; reflexivity|]. split; [reflexivity|].
  apply (delete_removes_only_target 2 200 table published);
    [right; left|]; reflexivity.
Defined.

Lemma identifiers_stay_unique_witness :
  NoDup (map id table)
  /\ assigns_fresh (PostStory (submission family) 3 130 131) table
  /\ NoDup (map id (serve (PostStory (submission family) 3 130 131) table)).
Proof.
  assert (Hn : NoDup (map id table)).
  { rewrite table_ids. repeat constructor.
    - intros [H|[]]; discriminate H.
    - intros []. }
  assert (Hf : assigns_fresh (PostStory (submission family) 3 130 131) table)
    by (cbn [assigns_fresh]; rewrite table_ids; intros [H|[H|[]]]; discriminate H).
  split; [exact Hn|]. split; [exact Hf|].
  apply (identifiers_stay_unique isalnum_latin1 lower_latin1 contains_profanity
           _ table Hn Hf).
Defined.

Lemma submit_approve_read_witness :
  ~ In 3 (map id table)
  /\ fst (create_story (submission family) 3 130 131 table)
     = Return (3, SUBMITTED)
  /\ fst (approve_story 3 200
            (snd (create_story (submission family) 3 130 131 table)))
     = Return APPROVED.
Proof.
  assert (H : ~ In 3 (map id table))
    by (rewrite table_ids; intros [H|[H|[]]]; discriminate H).
  split; [exact H|]. split; [vm_compute; reflexivity|].
  apply (submit_approve_read isalnum_latin1 lower_latin1 contains_profanity
           (submission family) 3 130 131 200 table H).
  vm_compute; reflexivity.
Defined.

Lemma public_until_deleted_witness :
  deletes 2 (PatchApprove 1 200) = false
  /\ fst (get_story 2 table) = Return (to_response published)
  /\ exists resp, fst (get_story 2 (serve (PatchApprove 1 200) table)) = Return resp.
Proof.
  split; [reflexivity|]. split; [reflexivity|].
  apply (public_until_deleted isalnum_latin1 lower_latin1 contains_profanity
           2 (PatchApprove 1 200) table (to_response published));
    reflexivity.
Defined.

Lemma submission_reaches_admin_witness :
  fst (create_story (submission family) 3 130 131 table) = Return (3, SUBMITTED)
  /\ exists rows,
       fst (get_pending_stories
              (snd (create_story (submission family) 3 130 131 table)))
       = Return rows
       /\ List.length rows = 3%nat.
Proof.
  split; [vm_compute; reflexivity|].
  destruct (submission_reaches_admin isalnum_latin1 lower_latin1 contains_profanity
              (submission family) 3 130 131 table)
    as (rows & Hr & Hl & _); [vm_compute; reflexivity|].
  exists rows. split; [exact Hr|exact Hl].
Defined.

Lemma approved_only_by_admin_witness :
  In (approve_row 20 (new_story (submission family) false 1 10 11))
     (run [PostStory (submission family) 1 10 11; PatchApprove 1 20] [])
  /\ existsb (approves 1)
       [PostStory (submission family) 1 10 11; PatchApprove 1 20] = true.
Proof.
  assert (H : In (approve_row 20 (new_story (submission family) false 1 10 11))
                (run [PostStory (submission family) 1 10 11; PatchApprove 1 20] []))
    by (vm_compute; left; reflexivity).
  split; [exact H|].
  apply (approved_only_by_admin isalnum_latin1 lower_latin1 contains_profanity
           _ [] _ (fun s0 (Hs0 : In s0 []) => match Hs0 with end) H).
  reflexivity.
Defined.

Lemma legitimate_is_long_enough_witness :
  is_legitimate_story family = true /\ 10 <= len (strip family) <= len family.
Proof.
  split; [vm_compute; reflexivity|].
  apply (legitimate_is_long_enough isalnum_latin1 lower_latin1 family).
  vm_compute; reflexivity.
Defined.

Lemma legitimate_has_four_characters_witness :
  len family <= models.MAX_LENGTH
  /\ is_legitimate_story family = true
  /\ 4 <= len (distinct family).
Proof.
  split; [vm_compute; discriminate|]. split; [vm_compute; reflexivity|].
  apply (legitimate_has_four_characters isalnum_latin1 lower_latin1 family).
  - vm_compute; discriminate.
  - vm_compute; reflexivity.
Defined.

Lemma symbol_flood_rejected_witness :
  len breaks <= models.MAX_LENGTH
  /\ non_standard isalnum_latin1 10 = true
  /\ len breaks < 5 * count 10 breaks
  /\ is_legitimate_story breaks = false.
Proof.
  split; [vm_compute; discriminate|]. split; [reflexivity|].
  split; [reflexivity|].
  apply (symbol_flood_rejected isalnum_latin1 lower_latin1 breaks 10).
  - vm_compute; discriminate.
  - reflexivity.
  - reflexivity.
Defined.

Lemma ascii_vowels_witness :
  is_ascii 69 = true /\ spec_vowel lower_latin1 69 = true.
Proof.
  split; [reflexivity|].
  apply (ascii_vowels lower_latin1 69 eq_refl).
  cbn. tauto.
Defined.

Lemma split_join_witness :
  Forall is_word three_words
  /\ split (join_spaces three_words) = three_words.
Proof.
  assert (H : Forall is_word three_words).
  { repeat constructor; try discriminate;
      intros c Hc; cbn in Hc;
      repeat (destruct Hc as [<-|Hc]; [reflexivity|]); destruct Hc. }
  split; [exact H|]. apply (split_join three_words H).
Defined.

Lemma long_words_without_vowels_rejected_witness :
  len cyrillic <= models.MAX_LENGTH
  /\ (forall c, In c cyrillic -> spec_vowel lower_latin1 c = false)
  /\ is_legitimate_story cyrillic = false.
Proof.
  assert (H : forall c, In c cyrillic -> spec_vowel lower_latin1 c = false).
  { intros c Hc. cbn in Hc.
    repeat (destruct Hc as [<-|Hc]; [reflexivity|]). destruct Hc. }
  split; [vm_compute; discriminate|]. split; [exact H|].
  apply (long_words_without_vowels_rejected isalnum_latin1 lower_latin1 cyrillic).
  - vm_compute; discriminate.
  - exact H.
  - reflexivity.
Defined.

End MoreInstances.

(* ================================================================== *)
(** ** Profanity comes first *)

Section ProfanityFirst.

Variable uni_isalnum : char -> bool.
Variable uni_lower : char -> str.
Variable CENSOR_WORDSET : list str.

Local Abbreviation contains_profanity :=
  (better_profanity.contains_profanity uni_lower CENSOR_WORDSET).
Local Abbreviation evaluate := (evaluate uni_isalnum uni_lower contains_profanity).
Local Abbreviation rejected_by := (rejected_by uni_isalnum uni_lower contains_profanity).
Local Abbreviation moderate := (moderate uni_isalnum uni_lower contains_profanity).






End ProfanityFirst.

Section ProfanityInstance.

Import Sample Scenarios.


End ProfanityInstance.
